(** * detecto.visualize: a shallow embedding and its properties

    The three entry points of [detecto/visualize.py] ([detect_video],
    [plot_prediction_grid], [show_labeled_image]) are glue code over OpenCV,
    matplotlib and a detection model.  What they compute is the sequence of
    calls they make on those libraries, so each entry point is embedded as a
    function returning the trace of library calls it performs together with
    its outcome (normal return or a raised exception).

    Conventions.
    - Python [int] is [Z]; Python [float] and tensor entries are exact
      rationals [Q], compared with [==].
    - A library call that the source makes is an event of the trace; a call
      that returns something the source branches on ([video.read],
      [cv2.waitKey], [model.predict_top]) takes its answer from an explicit
      environment.
    - Plotting and drawing calls are taken to succeed; the detector may
      raise. *)

From Stdlib Require Import String DecimalString ZArith QArith Qround Bool List Lia.
Import ListNotations.

Local Open Scope Z_scope.

(** ** Python runtime fragments *)

Module Py.

Inductive exn : Type :=
| ValueError (msg : string)
| RuntimeError (msg : string)
| IndexError
| ModelError (code : nat).

Inductive outcome (A : Type) : Type :=
| Returned (a : A)
| Raised (e : exn).
Arguments Returned {A} a.
Arguments Raised {A} e.

(** A computation over events [E]: the calls made so far, and how it
    ended. *)
Definition eff (E A : Type) : Type := (list E * outcome A)%type.

Definition ret {E A} (a : A) : eff E A := ([], Returned a).
Definition raise {E A} (e : exn) : eff E A := ([], Raised e).
Definition emit {E} (e : E) : eff E unit := ([e], Returned tt).

Definition bind {E A B} (m : eff E A) (k : A -> eff E B) : eff E B :=
  match m with
  | (t, Returned a) => let (t', o) := k a in (t ++ t', o)
  | (t, Raised e) => (t, Raised e)
  end.

(** Lifting the answer of a fallible external call, after logging it. *)
Definition call {E A} (e : E) (answer : outcome A) : eff E A :=
  ([e], answer).

Definition lift {E A} (answer : outcome A) : eff E A := ([], answer).

Definition trace {E A} (m : eff E A) : list E := fst m.
Definition result {E A} (m : eff E A) : outcome A := snd m.

(** [range(n)] for an integer [n]: empty when [n <= 0]. *)
Definition range (n : Z) : list Z := map Z.of_nat (seq 0 (Z.to_nat n)).

(** [len(l)] *)
Definition len {A} (l : list A) : Z := Z.of_nat (List.length l).

(** [l[i]] on a Python list: negative indices count from the end, an index
    outside [-len, len) raises [IndexError]. *)
Definition getitem {A} (l : list A) (i : Z) : outcome A :=
  let j := if i <? 0 then i + len l else i in
  if (0 <=? j) && (j <? len l) then
    match nth_error l (Z.to_nat j) with
    | Some a => Returned a
    | None => Raised IndexError
    end
  else Raised IndexError.

(** [zip(a, b, c)]: stops at the shortest argument. *)
Fixpoint zip3 {A B C} (la : list A) (lb : list B) (lc : list C)
  : list (A * B * C) :=
  match la, lb, lc with
  | a :: la', b :: lb', c :: lc' => (a, b, c) :: zip3 la' lb' lc'
  | _, _, _ => []
  end.

(** [for x in xs: s = body(x, s)], threading the loop-carried locals. *)
Fixpoint for_each {E A S} (xs : list A) (body : A -> S -> eff E S) (s : S)
  : eff E S :=
  match xs with
  | [] => ret s
  | x :: xs' => bind (body x s) (for_each xs' body)
  end.

(** [round(x, 2)] on an exact value: nearest multiple of 1/100, ties to the
    even one. *)
Definition round2 (x : Q) : Q :=
  let y := (x * 100)%Q in
  let lo := Qfloor y in
  let frac := (y - inject_Z lo)%Q in
  let up :=
    match (frac ?= 1 # 2)%Q with
    | Lt => false
    | Gt => true
    | Eq => Z.odd lo
    end in
  ((if up then lo + 1 else lo) # 100)%Q.

(** [str(n)] for an integer. *)
Definition str (n : Z) : string := NilZero.string_of_int (Z.to_int n).

End Py.

Import Py.

Declare Scope eff_scope.
Delimit Scope eff_scope with eff.
Notation "x <- m ;; k" := (bind m (fun x => k))
  (at level 61, m at next level, right associativity) : eff_scope.
Notation "m ;;; k" := (bind m (fun _ => k))
  (at level 61, right associativity) : eff_scope.
Local Open Scope eff_scope.

(** ** The detector interface (detecto.core.Model) *)

Module Detector.

(** A row of the boxes tensor: [box[0]], [box[1]], [box[2]], [box[3]]. *)
Record Box : Type := mkBox { b0 : Q; b1 : Q; b2 : Q; b3 : Q }.

Definition box_eq (a b : Box) : Prop :=
  (b0 a == b0 b /\ b1 a == b1 b /\ b2 a == b2 b /\ b3 a == b3 b)%Q.

(** What is handed to the detector and to [imshow]: a normalised
    [torch.Tensor] or anything else (PIL image, ndarray). *)
Inductive image : Type :=
| TensorImage (data : nat)
| RasterImage (data : nat).

Definition is_tensor (i : image) : bool :=
  match i with TensorImage _ => true | RasterImage _ => false end.

(** The triple [(labels, boxes, scores)] a prediction call returns. *)
Definition predictions : Type := (list string * list Box * list Q)%type.

(** [zip] applied to the unpacked triple, as in [for label, box, score in
    zip( *preds )]. *)
Definition zip_preds (p : predictions) : list (string * Box * Q) :=
  let '(labels, boxes, scores) := p in zip3 labels boxes scores.

(** The boxes of the triples the prediction loop iterates over. *)
Definition raw_boxes (p : predictions) : list Box :=
  map (fun q => snd (fst q)) (zip_preds p).

(** Modelled from the spec: detecto.core.Model is not part of the sources;
    its two prediction calls are [predict], returning every detected
    object, and [predict_top], returning the highest-scoring detection per
    distinct label.  Either call may raise. *)
Record Model : Type := mkModel {
  predict : image -> outcome predictions;
  predict_top : image -> outcome predictions
}.

(** Modelled from the spec: the restriction [predict_top] applies to the
    output of [predict], keeping for each label the first detection of
    highest score. *)
Definition beats (s : Q) (labelled : string * Box * Q) (l : string) : bool :=
  let '(l', _, s') := labelled in String.eqb l l' && negb (Qle_bool s' s).

Fixpoint top_per_label (seen : list (string * Box * Q))
         (ps : list (string * Box * Q)) : list (string * Box * Q) :=
  match ps with
  | [] => []
  | (l, b, s) :: rest =>
      let later_better := existsb (fun p => beats s p l) rest in
      let earlier_as_good :=
        existsb (fun p => let '(l', _, s') := p in
                          String.eqb l l' && Qle_bool s s') seen in
      if later_better || earlier_as_good
      then top_per_label (seen ++ [(l, b, s)]) rest
      else (l, b, s) :: top_per_label (seen ++ [(l, b, s)]) rest
  end.

Definition unzip_preds (ps : list (string * Box * Q)) : predictions :=
  (map (fun p => fst (fst p)) ps, map (fun p => snd (fst p)) ps,
   map snd ps).

End Detector.

Import Detector.

(** ** detect_video *)

Module Video.

(** What [cv2.rectangle] and [cv2.putText] leave on a frame.  The text
    ['{}: {}'.format(label, round(score.item(), 2))] is kept as the pair of
    its two arguments. *)
Inductive drawing : Type :=
| Rectangle (pt1 pt2 : Q * Q) (color : Z * Z * Z) (thickness : Z)
| PutText (label : string) (score : Q) (org : Q * Q) (font_scale : Z)
          (color : Z * Z * Z) (thickness : Z).

(** A frame as [video.read] returns it: an array of [height] x [width]
    pixels, drawn on in place. *)
Record frame : Type := mkFrame {
  height : Z;
  width : Z;
  pixels : nat;
  drawn : list drawing
}.

Definition draw (f : frame) (d : drawing) : frame :=
  {| height := height f; width := width f; pixels := pixels f;
     drawn := drawn f ++ [d] |}.

(** An openable video file: the two properties the source queries and the
    frames [read] will deliver. *)
Record video : Type := mkVideo {
  cap_width : Z;
  cap_height : Z;
  cap_frames : list frame
}.

Inductive event : Type :=
| VideoCapture (input_file : string)
| VideoWriter (output_file fourcc : string) (fps : Z) (frame_size : Z * Z)
| ReadFrame (got : option frame)
| PredictTop (img : image)
| WriteFrame (f : frame)
| WaitKey (delay : Z) (answer : Z)
| ReleaseCapture
| ReleaseWriter
| DestroyAllWindows.

Definition scaled_size : Z := 800.

(** [min(frame_height, frame_width) / scaled_size] *)
Definition scale_down_factor (frame_height frame_width : Z) : Q :=
  (inject_Z (Z.min frame_height frame_width) / inject_Z scaled_size)%Q.

(** [box *= scale_down_factor] *)
Definition scale_box (box : Box) (factor : Q) : Box :=
  {| b0 := b0 box * factor; b1 := b1 box * factor;
     b2 := b2 box * factor; b3 := b3 box * factor |}%Q.

(** The two drawing calls of one iteration of the prediction loop, on the
    box after the in-place multiplication. *)
Definition box_drawings (label : string) (box : Box) (score : Q)
  : list drawing :=
  [ Rectangle (b0 box, b1 box) (b2 box, b3 box) (255, 0, 0) 3;
    PutText label (round2 score) (b0 box, b1 box - 10)%Q 1 (255, 0, 0) 3 ].

Definition annotate_one (factor : Q) (f : frame) (p : string * Box * Q)
  : frame :=
  let '(label, box, score) := p in
  let box := scale_box box factor in
  fold_left draw (box_drawings label box score) f.

(** [for label, box, score in zip( *predictions )] *)
Definition annotate (factor : Q) (f : frame) (preds : predictions) : frame :=
  fold_left (annotate_one factor) (zip_preds preds) f.

Section Environment.

(** What [cv2.VideoCapture] finds at a path: [None] when the file cannot
    be opened. *)
Variable open_video : string -> option video.

(** The answer of the [n]-th call of [cv2.waitKey(1)]. *)
Variable wait_key : nat -> Z.

(** The torchvision pipeline [ToPILImage, Resize(scaled_size), ToTensor,
    normalize_transform()]. *)
Variable transform_frame : frame -> image.

(** [int(video.get(prop))]: a capture that is not opened answers 0. *)
Definition get_width (v : option video) : Z :=
  match v with Some v => cap_width v | None => 0 end.
Definition get_height (v : option video) : Z :=
  match v with Some v => cap_height v | None => 0 end.

(** The frames a capture still has to deliver; none when not opened. *)
Definition frames_of (v : option video) : list frame :=
  match v with Some v => cap_frames v | None => [] end.

(** The [while True] loop.  [pending] is what the capture has left, [n]
    counts the iterations completed. *)
Fixpoint frame_loop (model : Model) (factor : Q) (pending : list frame)
         (n : nat) : eff event unit :=
  match pending with
  | [] =>
      (* ret is False: break *)
      emit (ReadFrame None)
  | frame :: rest =>
      emit (ReadFrame (Some frame)) ;;;
      let transformed_frame := transform_frame frame in
      predictions <- call (PredictTop transformed_frame)
                          (predict_top model transformed_frame) ;;
      let frame := annotate factor frame predictions in
      emit (WriteFrame frame) ;;;
      let answer := wait_key n in
      emit (WaitKey 1 answer) ;;;
      let key := Z.land answer 255 in
      if key =? 113 (* ord("q") *) then ret tt
      else frame_loop model factor rest (S n)
  end.

Definition detect_video (model : Model) (input_file output_file : string)
           (fps : Z) : eff event unit :=
  emit (VideoCapture input_file) ;;;
  let video := open_video input_file in
  let frame_width := get_width video in
  let frame_height := get_height video in
  let scale_down_factor := scale_down_factor frame_height frame_width in
  emit (VideoWriter output_file "DIVX" fps (frame_width, frame_height)) ;;;
  frame_loop model scale_down_factor (frames_of video) 0 ;;;
  emit ReleaseCapture ;;;
  emit ReleaseWriter ;;;
  emit DestroyAllWindows.

(** *** The three phases of a call, for stating its trace *)

(** The factor a call computes for the file it is given. *)
Definition factor_of (input_file : string) : Q :=
  scale_down_factor (get_height (open_video input_file))
                    (get_width (open_video input_file)).

Definition opening (input_file output_file : string) (fps : Z) : list event :=
  [VideoCapture input_file;
   VideoWriter output_file "DIVX" fps
     (get_width (open_video input_file), get_height (open_video input_file))].

Definition closing : list event :=
  [ReleaseCapture; ReleaseWriter; DestroyAllWindows].

Definition body_of (model : Model) (input_file : string) : eff event unit :=
  frame_loop model (factor_of input_file) (frames_of (open_video input_file)) 0.

(** *** Reading a trace *)

Definition frames_read (t : list event) : list frame :=
  flat_map (fun e => match e with ReadFrame (Some f) => [f] | _ => [] end) t.

Definition reads (t : list event) : list (option frame) :=
  flat_map (fun e => match e with ReadFrame r => [r] | _ => [] end) t.

Definition frames_written (t : list event) : list frame :=
  flat_map (fun e => match e with WriteFrame f => [f] | _ => [] end) t.

Definition is_release (e : event) : bool :=
  match e with ReleaseCapture | ReleaseWriter => true | _ => false end.

Definition is_read (e : event) : bool :=
  match e with ReadFrame _ => true | _ => false end.

(** A [waitKey] answer whose low byte is [ord("q")]. *)
Definition is_quit (e : event) : bool :=
  match e with
  | WaitKey _ answer => Z.land answer 255 =? 113
  | _ => false
  end.


End Environment.

(** The events that follow the first quit answer of a trace. *)
Fixpoint after_quit (t : list event) : list event :=
  match t with
  | [] => []
  | e :: t' => if is_quit e then t' else after_quit t'
  end.

(** The corners of the rectangles drawn on a frame, in drawing order. *)
Definition rectangles (f : frame) : list Box :=
  flat_map (fun d => match d with
                     | Rectangle (x0, y0) (x1, y1) _ _ => [mkBox x0 y0 x1 y1]
                     | PutText _ _ _ _ _ _ => []
                     end) (drawn f).

(** How a written frame comes from the frame that was read: the detector
    answered [p] on the transformed frame and [p] was drawn on it. *)
Definition written_from (transform_frame : frame -> image) (model : Model)
           (factor : Q) (r w : frame) : Prop :=
  exists p, predict_top model (transform_frame r) = Returned p /\
            w = annotate factor r p.

(** The images handed to [model.predict_top], in call order. *)
Definition detections (t : list event) : list image :=
  flat_map (fun e => match e with PredictTop i => [i] | _ => [] end) t.

(** The answers of the [cv2.waitKey] calls, in call order. *)
Definition polls (t : list event) : list Z :=
  flat_map (fun e => match e with WaitKey _ a => [a] | _ => [] end) t.

(** The low byte the loop compares with [ord("q")]. *)
Definition key_of (answer : Z) : Z := Z.land answer 255.

(** A box whose first corner is not beyond its second. *)
Definition ordered (b : Box) : Prop :=
  (b0 b <= b2 b /\ b1 b <= b3 b)%Q.

End Video.

(** ** matplotlib calls shared by the two plotting entry points *)

Module Plot.

(** [patches.Rectangle(xy, width, height, linewidth=1, edgecolor='r',
    facecolor='none')] *)
Record patch : Type := mkPatch {
  xy : Q * Q;
  patch_width : Q;
  patch_height : Q;
  linewidth : Z;
  edgecolor : string;
  facecolor : string
}.

Definition red_rectangle (xy : Q * Q) (w h : Q) : patch :=
  {| xy := xy; patch_width := w; patch_height := h;
     linewidth := 1; edgecolor := "r"; facecolor := "none" |}.

(** The element of what [plt.subplots] returned that [ax] is bound to:
    [axes], [axes[k]] or [axes[i, j]]. *)
Inductive axes_ref : Type :=
| Axes
| AxesAt (k : Z)
| AxesAt2 (i j : Z).

Inductive event : Type :=
| Subplots (nrows ncols : Z) (figsize : option (Q * Q))
| PredictTop (img : image)
| Imshow (ax : axes_ref) (img : image)
| AddPatch (ax : axes_ref) (p : patch)
| AxText (ax : axes_ref) (x y : Q) (label : string) (score : Q)
         (color : string)
| SetTitle (ax : axes_ref) (title : string)
| PltShow.

End Plot.

Import Plot.

(** ** plot_prediction_grid *)

Module Grid.

Definition layout_message : string :=
  "Grid dimensions do not match size of list of images".

(** The four-way choice of [ax] under the comment "Get the correct axis". *)
Definition correct_axis (dim : Z * Z) (i j : Z) : axes_ref :=
  if (fst dim <=? 1) && (snd dim <=? 1) then Axes
  else if fst dim <=? 1 then AxesAt j
  else if snd dim <=? 1 then AxesAt i
  else AxesAt2 i j.

Section Environment.

(** [transforms.ToPILImage()(reverse_normalize(image))], from
    torchvision and detecto.utils. *)
Variable to_pil_reversed : image -> image.

(** The body of the loop "Plot boxes and labels" for one triple. *)
Definition plot_box (ax : axes_ref) (index : Z) (p : string * Box * Q)
  : eff event unit :=
  let '(label, box, score) := p in
  let width := (b2 box - b0 box)%Q in
  let height := (b3 box - b1 box)%Q in
  let initial_pos := (b0 box, b1 box) in
  let rect := red_rectangle initial_pos width height in
  emit (AddPatch ax rect) ;;;
  emit (AxText ax (b0 box + 5) (b1 box - 10) label (round2 score) "red") ;;;
  emit (SetTitle ax ("Image " ++ str index)).

(** The body of the inner [for j] loop; [index] is the loop-carried
    counter, returned after its increment. *)
Definition plot_cell (model : Model) (images : list image) (dim : Z * Z)
           (i j : Z) (index : Z) : eff event Z :=
  image <- lift (getitem images index) ;;
  preds <- call (PredictTop image) (predict_top model image) ;;
  let image := if is_tensor image then to_pil_reversed image else image in
  let index := index + 1 in
  let ax := correct_axis dim i j in
  emit (Imshow ax image) ;;;
  for_each (zip_preds preds) (fun p _ => plot_box ax index p) tt ;;;
  ret index.

Definition plot_prediction_grid (model : Model) (images : list image)
           (dim : option (Z * Z)) (figsize : option (Q * Q))
  : eff event unit :=
  let dim := match dim with None => (len images, 1) | Some d => d end in
  if negb (fst dim * snd dim =? len images) then
    raise (ValueError layout_message)
  else
    emit (Subplots (fst dim) (snd dim) figsize) ;;;
    for_each (range (fst dim))
      (fun i index =>
         for_each (range (snd dim))
           (fun j index => plot_cell model images dim i j index) index)
      0 ;;;
    emit PltShow.

(** *** The trace of a call, cell by cell *)

(** The pairs [(i, j)] in the order the two nested loops visit them. *)
Definition schedule (dim : Z * Z) : list (Z * Z) :=
  flat_map (fun i => map (fun j => (i, j)) (range (snd dim))) (range (fst dim)).

(** [enumerate(images, start)] *)
Fixpoint enumerate (start : Z) (images : list image) : list (Z * image) :=
  match images with
  | [] => []
  | image :: rest => (start, image) :: enumerate (start + 1) rest
  end.

(** What [predict_top] answered on an image; nothing if it raised. *)
Definition answer_of (model : Model) (image : image) : predictions :=
  match predict_top model image with
  | Returned p => p
  | Raised _ => ([], [], [])
  end.

(** The detector answers on every image of the list. *)
Definition answers_all (model : Model) (images : list image) : Prop :=
  forall img, In img images -> exists p, predict_top model img = Returned p.

Definition display (img : image) : image :=
  if is_tensor img then to_pil_reversed img else img.

Definition box_patch (box : Box) : patch :=
  red_rectangle (b0 box, b1 box) (b2 box - b0 box)%Q (b3 box - b1 box)%Q.

(** Where and what [ax.text] writes for one triple. *)
Definition box_text (p : string * Box * Q) : (Q * Q) * (string * Q) :=
  let '(label, box, score) := p in
  ((b0 box + 5, b1 box - 10)%Q, (label, round2 score)).

Definition box_events (ax : axes_ref) (index : Z) (p : string * Box * Q)
  : list event :=
  let '(label, box, score) := p in
  [AddPatch ax (box_patch box);
   AxText ax (b0 box + 5) (b1 box - 10) label (round2 score) "red";
   SetTitle ax ("Image " ++ str index)].

(** The calls made for the image at [index] (counted from 0) when it is
    visited at grid position [(i, j)]. *)
Definition cell_events (model : Model) (dim : Z * Z)
           (cell : (Z * Z) * (Z * image)) : list event :=
  let '((i, j), (index, image)) := cell in
  let ax := correct_axis dim i j in
  [PredictTop image; Imshow ax (display image)]
    ++ flat_map (box_events ax (index + 1)) (zip_preds (answer_of model image)).

Definition cells (dim : Z * Z) (images : list image)
  : list ((Z * Z) * (Z * image)) :=
  combine (schedule dim) (enumerate 0 images).

End Environment.

(** *** Reading a trace *)

Definition detected (t : list event) : list image :=
  flat_map (fun e => match e with PredictTop i => [i] | _ => [] end) t.

Definition shown (t : list event) : list (axes_ref * image) :=
  flat_map (fun e => match e with Imshow ax i => [(ax, i)] | _ => [] end) t.

Definition patches (t : list event) : list (axes_ref * patch) :=
  flat_map (fun e => match e with AddPatch ax p => [(ax, p)] | _ => [] end) t.

Definition texts (t : list event)
  : list (axes_ref * ((Q * Q) * (string * Q))) :=
  flat_map (fun e => match e with
                     | AxText ax x y label score _ =>
                         [(ax, ((x, y), (label, score)))]
                     | _ => []
                     end) t.

Definition titles (t : list event) : list (axes_ref * string) :=
  flat_map (fun e => match e with SetTitle ax s => [(ax, s)] | _ => [] end) t.

(** How many triples [zip] makes of an answer. *)
Definition triples (p : predictions) : nat := List.length (zip_preds p).


Definition is_show (e : event) : bool :=
  match e with PltShow => true | _ => false end.

End Grid.

(** ** show_labeled_image *)

Module Overlay.

(** The [boxes] argument: a tensor of one dimension, or of two given by
    its rows. *)
Inductive tensor : Type :=
| Vec (xs : list Q)
| Mat (rows : list (list Q)).

Definition ndim (t : tensor) : Z :=
  match t with Vec _ => 1 | Mat _ => 2 end.

Definition numel (t : tensor) : nat :=
  match t with
  | Vec xs => List.length xs
  | Mat rows => List.length (List.concat rows)
  end.

Definition flatten (t : tensor) : list Q :=
  match t with Vec xs => xs | Mat rows => List.concat rows end.

Definition view_message (n : nat) : string :=
  "shape '[1, 4]' is invalid for input of size " ++ str (Z.of_nat n).

(** [boxes.view(1, 4)]: the same four elements as one row; any other
    element count is a [RuntimeError]. *)
Definition view_1_4 (t : tensor) : outcome tensor :=
  if Nat.eqb (numel t) 4 then Returned (Mat [flatten t])
  else Raised (RuntimeError (view_message (numel t))).

(** [box[k]] on a row. *)
Definition item (box : list Q) (k : nat) : outcome Q :=
  match nth_error box k with
  | Some x => Returned x
  | None => Raised IndexError
  end.

(** Iterating a tensor yields its slices along the first dimension; the
    slices of a one-dimensional tensor are scalars, which cannot be
    indexed. *)
Definition iter_rows (t : tensor) : list (list Q) :=
  match t with
  | Mat rows => rows
  | Vec xs => map (fun _ => []) xs
  end.

Section Environment.

(** [transforms.ToPILImage()(image)] *)
Variable to_pil : image -> image.

(** The body of the loop "Plot each box". *)
Definition plot_row (box : list Q) : eff event unit :=
  box2 <- lift (item box 2) ;;
  box0 <- lift (item box 0) ;;
  box3 <- lift (item box 3) ;;
  box1 <- lift (item box 1) ;;
  let width := (box2 - box0)%Q in
  let height := (box3 - box1)%Q in
  let initial_pos := (box0, box1) in
  let rect := red_rectangle initial_pos width height in
  emit (AddPatch Axes rect).

Definition show_labeled_image (image : image) (boxes : tensor)
  : eff event unit :=
  emit (Subplots 1 1 None) ;;;
  let image := if is_tensor image then to_pil image else image in
  emit (Imshow Axes image) ;;;
  boxes <- (if ndim boxes =? 1 then lift (view_1_4 boxes)
            else ret boxes) ;;
  for_each (iter_rows boxes) (fun box _ => plot_row box) tt ;;;
  emit PltShow.

End Environment.

(** The rectangle for a row: anchored at [(box[0], box[1])], of width
    [box[2] - box[0]] and height [box[3] - box[1]]. *)
Definition row_rectangle (box : list Q) : patch :=
  red_rectangle (nth 0 box 0%Q, nth 1 box 0%Q)
                (nth 2 box 0%Q - nth 0 box 0%Q)%Q
                (nth 3 box 0%Q - nth 1 box 0%Q)%Q.

Definition added (t : list event) : list patch :=
  flat_map (fun e => match e with AddPatch _ p => [p] | _ => [] end) t.

(** The calls the overlay is made of: the figure, the image, rectangles on
    the one axes, the display. *)
Definition plot_only (e : event) : bool :=
  match e with
  | Subplots _ _ _ | Imshow Axes _ | AddPatch Axes _ | PltShow => true
  | _ => false
  end.

End Overlay.

(** ** Concrete detectors, videos and keyboards used in examples *)

Module Samples.

Import Video.

Definition cat_low : string * Box * Q := ("cat"%string, mkBox 1 2 3 4, 1 # 2).
Definition cat_high : string * Box * Q := ("cat"%string, mkBox 5 6 7 9, 3 # 4).

(** A detector that sees two cats in every image; [predict_top] keeps the
    better one. *)
Definition two_cats : Model :=
  {| predict := fun _ => Returned (unzip_preds [cat_low; cat_high]);
     predict_top := fun _ =>
       Returned (unzip_preds (top_per_label [] [cat_low; cat_high])) |}.

(** A detector that finds nothing. *)
Definition blind : Model :=
  {| predict := fun _ => Returned ([], [], []);
     predict_top := fun _ => Returned ([], [], []) |}.

(** A detector whose calls raise. *)
Definition broken : Model :=
  {| predict := fun _ => Raised (ModelError 1);
     predict_top := fun _ => Raised (ModelError 1) |}.

Definition still (n : nat) : frame :=
  {| height := 1600; width := 2000; pixels := n; drawn := [] |}.

Definition clip : video :=
  {| cap_width := 2000; cap_height := 1600;
     cap_frames := [still 0; still 1; still 2] |}.

(** A clip whose short side is already [scaled_size]. *)
Definition small_clip : video :=
  {| cap_width := 1000; cap_height := 800;
     cap_frames := [{| height := 800; width := 1000; pixels := 0;
                       drawn := [] |}] |}.

Definition disk (path : string) : option video :=
  if String.eqb path "clip.mp4" then Some clip
  else if String.eqb path "small.mp4" then Some small_clip
  else None.

(** No key is ever pressed: [waitKey] answers -1. *)
Definition no_key (n : nat) : Z := -1.

(** The key q is down when the second frame has been written. *)
Definition q_on_second (n : nat) : Z :=
  if Nat.eqb n 1 then 113 else -1.

Definition to_tensor (f : frame) : image := TensorImage (pixels f).

Definition as_raster (i : image) : image :=
  match i with TensorImage d => RasterImage d | RasterImage d => RasterImage d end.

(** A detector that answers as [two_cats] does, except on the image with
    the given content, where it raises. *)
Definition fails_on (d : nat) : Model :=
  {| predict := predict two_cats;
     predict_top := fun img =>
       match img with
       | TensorImage d' | RasterImage d' =>
           if Nat.eqb d d' then Raised (ModelError 7)
           else predict_top two_cats img
       end |}.


End Samples.

(** * Properties *)

(** ** The effect layer *)

Section EffFacts.

Context {E : Type}.

Lemma bind_emit {B} (e : E) (k : unit -> eff E B) :
  bind (emit e) k = (e :: fst (k tt), snd (k tt)).
Proof. unfold bind, emit. destruct (k tt); reflexivity. Qed.

Lemma bind_ret {A B} (a : A) (k : A -> eff E B) : bind (ret a) k = k a.
Proof. unfold bind, ret. destruct (k a); reflexivity. Qed.

Lemma bind_raised {A B} (t : list E) (e : exn) (k : A -> eff E B) :
  bind (t, Raised e) k = (t, Raised e).
Proof. reflexivity. Qed.

Lemma bind_returned {A B} (t : list E) (a : A) (k : A -> eff E B) :
  bind (t, Returned a) k = (t ++ fst (k a), snd (k a)).
Proof. unfold bind. destruct (k a); reflexivity. Qed.

Lemma for_each_app {A S} (xs ys : list A) (body : A -> S -> eff E S) (s : S) :
  for_each (xs ++ ys) body s = bind (for_each xs body s) (for_each ys body).
Proof.
  revert s. induction xs as [|x xs IH]; intros s; simpl.
  - unfold bind, ret. destruct (for_each ys body s); reflexivity.
  - destruct (body x s) as [t [s'|e]]; simpl; [|reflexivity].
    rewrite IH. destruct (for_each xs body s') as [t1 [s1|e1]]; simpl.
    + destruct (for_each ys body s1) as [t2 o2]. now rewrite app_assoc.
    + reflexivity.
Qed.

Lemma bind_ext {A B} (m : eff E A) (k k' : A -> eff E B) :
  (forall a, k a = k' a) -> bind m k = bind m k'.
Proof.
  intros H. destruct m as [t [a|e]]; simpl; [now rewrite H | reflexivity].
Qed.

Lemma for_each_ext {A S} (xs : list A) (body body' : A -> S -> eff E S) (s : S) :
  (forall x s, body x s = body' x s) ->
  for_each xs body s = for_each xs body' s.
Proof.
  intros H. revert s. induction xs as [|x xs IH]; intros s; simpl.
  - reflexivity.
  - rewrite H. apply bind_ext. exact IH.
Qed.

Lemma for_each_map {A A' S} (f : A -> A') (xs : list A)
      (body : A' -> S -> eff E S) (s : S) :
  for_each (map f xs) body s = for_each xs (fun x => body (f x)) s.
Proof.
  revert s. induction xs as [|x xs IH]; intros s; simpl.
  - reflexivity.
  - apply bind_ext. exact IH.
Qed.

(** Two nested loops over [rs] and [cs] are one loop over the pairs, rows
    first. *)
Lemma for_each_nested {A B S} (rs : list A) (cs : list B)
      (body : A -> B -> S -> eff E S) (s : S) :
  for_each rs (fun i s => for_each cs (fun j s => body i j s) s) s =
  for_each (flat_map (fun i => map (fun j => (i, j)) cs) rs)
           (fun ij s => body (fst ij) (snd ij) s) s.
Proof.
  revert s. induction rs as [|i rs IH]; intros s; simpl.
  - reflexivity.
  - rewrite for_each_app, for_each_map. simpl.
    apply bind_ext. exact IH.
Qed.

End EffFacts.

Lemma flat_map_flat_map {A B C} (f : B -> list C) (g : A -> list B)
      (l : list A) :
  flat_map f (flat_map g l) = flat_map (fun x => flat_map f (g x)) l.
Proof.
  induction l as [|x l IH]; simpl; [reflexivity|].
  now rewrite flat_map_app, IH.
Qed.

Lemma flat_map_length_uniform {A B} (f : A -> list B) (n : nat) (l : list A) :
  (forall x, List.length (f x) = n) ->
  List.length (flat_map f l) = (List.length l * n)%nat.
Proof.
  intros H. induction l as [|x l IH]; simpl; [reflexivity|].
  now rewrite length_app, H, IH.
Qed.

Lemma range_nonpos (n : Z) : n <= 0 -> range n = [].
Proof.
  intros H. unfold range.
  replace (Z.to_nat n) with 0%nat by lia. reflexivity.
Qed.

Lemma range_length (n : Z) : 0 <= n -> len (range n) = n.
Proof.
  intros H. unfold len, range. rewrite length_map, length_seq. lia.
Qed.

Lemma getitem_nth {A} (pre : list A) (a : A) (post : list A) :
  getitem (pre ++ a :: post) (len pre) = Returned a.
Proof.
  unfold getitem, len.
  assert (Hlt : (Z.of_nat (List.length pre) <? 0) = false) by (apply Z.ltb_ge; lia).
  rewrite Hlt.
  assert (H0 : (0 <=? Z.of_nat (List.length pre)) = true) by (apply Z.leb_le; lia).
  rewrite H0, length_app. simpl List.length.
  assert (H1 : (Z.of_nat (List.length pre)
                <? Z.of_nat (List.length pre + S (List.length post))) = true)
    by (apply Z.ltb_lt; lia).
  rewrite H1, Nat2Z.id. simpl.
  rewrite nth_error_app2 by lia. now rewrite Nat.sub_diag.
Qed.

(** ** detect_video *)

Module VideoFacts.

Import Video.

Lemma after_quit_app (a b : list event) :
  after_quit (a ++ b) =
  if existsb is_quit a then after_quit a ++ b else after_quit b.
Proof.
  induction a as [|e a IH]; simpl; [reflexivity|].
  destruct (is_quit e); simpl; [reflexivity | exact IH].
Qed.

Lemma annotate_one_frame (factor : Q) (f : frame) (p : string * Box * Q) :
  height (annotate_one factor f p) = height f /\
  width (annotate_one factor f p) = width f /\
  pixels (annotate_one factor f p) = pixels f /\
  drawn (annotate_one factor f p) =
    drawn f ++ box_drawings (fst (fst p)) (scale_box (snd (fst p)) factor) (snd p).
Proof.
  destruct p as [[label box] score]. simpl.
  repeat split; try reflexivity.
  now rewrite <- app_assoc.
Qed.

Lemma annotate_frame (factor : Q) (preds : predictions) (f : frame) :
  height (annotate factor f preds) = height f /\
  width (annotate factor f preds) = width f /\
  pixels (annotate factor f preds) = pixels f /\
  drawn (annotate factor f preds) =
    drawn f ++
    flat_map (fun p => box_drawings (fst (fst p))
                         (scale_box (snd (fst p)) factor) (snd p))
             (zip_preds preds).
Proof.
  unfold annotate. revert f.
  induction (zip_preds preds) as [|p ps IH]; intros f; simpl.
  - now rewrite app_nil_r.
  - destruct (IH (annotate_one factor f p)) as (Hh & Hw & Hp & Hd).
    destruct (annotate_one_frame factor f p) as (Hh1 & Hw1 & Hp1 & Hd1).
    rewrite Hh, Hw, Hp, Hd, Hh1, Hw1, Hp1, Hd1.
    repeat split. now rewrite <- app_assoc.
Qed.


Lemma annotate_rectangles (factor : Q) (preds : predictions) (f : frame) :
  rectangles (annotate factor f preds) =
  rectangles f ++ map (fun b => scale_box b factor) (raw_boxes preds).
Proof.
  unfold rectangles, raw_boxes.
  destruct (annotate_frame factor preds f) as (_ & _ & _ & ->).
  rewrite flat_map_app. f_equal.
  induction (zip_preds preds) as [|[[l b] s] ps IH]; simpl; [reflexivity|].
  now rewrite IH.
Qed.

Lemma scale_down_factor_one (h w : Z) :
  (scale_down_factor h w == 1)%Q <-> Z.min h w = 800.
Proof.
  unfold scale_down_factor, scaled_size, Qeq, Qdiv, Qinv, Qmult, inject_Z.
  simpl. lia.
Qed.

Lemma scale_box_one (box : Box) (factor : Q) :
  (factor == 1)%Q -> box_eq (scale_box box factor) box.
Proof.
  intros H. unfold box_eq, scale_box; simpl.
  repeat split; rewrite H; apply Qmult_1_r.
Qed.

Lemma scale_box_inverse (box : Box) (factor : Q) :
  ~ (factor == 0)%Q ->
  box_eq (scale_box (scale_box box (/ factor)) factor) box.
Proof.
  intros H. unfold box_eq, scale_box; simpl.
  repeat split; field; exact H.
Qed.

Section Loop.

Variable wait_key : nat -> Z.
Variable transform_frame : frame -> image.
Variable model : Model.
Variable factor : Q.

Local Abbreviation loop :=
  (frame_loop wait_key transform_frame model factor).
Local Abbreviation written_from :=
  (written_from transform_frame model factor).

(** One turn of the loop, by cases on the detector's answer and on the key. *)
Lemma frame_loop_cons (f : frame) (rest : list frame) (n : nat) :
  loop (f :: rest) n =
  match predict_top model (transform_frame f) with
  | Raised e =>
      ([ReadFrame (Some f); PredictTop (transform_frame f)], Raised e)
  | Returned p =>
      let head := [ReadFrame (Some f); PredictTop (transform_frame f);
                   WriteFrame (annotate factor f p); WaitKey 1 (wait_key n)] in
      if Z.land (wait_key n) 255 =? 113 then (head, Returned tt)
      else (head ++ fst (loop rest (S n)), snd (loop rest (S n)))
  end.
Proof.
  simpl. unfold call, bind, emit.
  destruct (predict_top model (transform_frame f)); [|reflexivity].
  simpl. destruct (Z.land (wait_key n) 255 =? 113); simpl; [reflexivity|].
  destruct (frame_loop wait_key transform_frame model factor rest (S n)).
  reflexivity.
Qed.

Ltac loop_cases f n :=
  rewrite frame_loop_cons;
  destruct (predict_top model (transform_frame f)) eqn:Hpred;
  [ destruct (Z.land (wait_key n) 255 =? 113) eqn:Hkey | ]; simpl.



Lemma loop_written (pending : list frame) (n : nat) :
  Forall (fun w => exists r, In r (frames_read (fst (loop pending n))) /\
                             written_from r w)
         (frames_written (fst (loop pending n))).
Proof.
  revert n. induction pending as [|f pending IH]; intros n.
  - constructor.
  - loop_cases f n.
    + constructor; [|constructor]. exists f. split; [now left | now exists a].
    + constructor.
      * exists f. split; [now left | now exists a].
      * eapply Forall_impl; [|apply IH].
        intros w (r & Hin & Hw). exists r. split; [now right | exact Hw].
    + constructor.
Qed.

Lemma loop_raised (pending : list frame) (n : nat) (e : exn) :
  snd (loop pending n) = Raised e ->
  List.length (frames_read (fst (loop pending n))) =
  S (List.length (frames_written (fst (loop pending n)))).
Proof.
  revert n. induction pending as [|f pending IH]; intros n.
  - discriminate.
  - loop_cases f n; intros H.
    + discriminate.
    + f_equal. now apply IH.
    + reflexivity.
Qed.


Lemma loop_no_release (pending : list frame) (n : nat) :
  existsb is_release (fst (loop pending n)) = false.
Proof.
  revert n. induction pending as [|f pending IH]; intros n.
  - reflexivity.
  - loop_cases f n; [reflexivity | apply IH | reflexivity].
Qed.

Lemma loop_after_quit (pending : list frame) (n : nat) :
  after_quit (fst (loop pending n)) = [].
Proof.
  revert n. induction pending as [|f pending IH]; intros n.
  - reflexivity.
  - loop_cases f n.
    + now rewrite Hkey.
    + rewrite Hkey. apply IH.
    + reflexivity.
Qed.

Lemma loop_total_detector (pending : list frame) (n : nat) :
  (forall f, In f pending ->
             exists p, predict_top model (transform_frame f) = Returned p) ->
  snd (loop pending n) = Returned tt.
Proof.
  revert n. induction pending as [|f pending IH]; intros n Hok.
  - reflexivity.
  - loop_cases f n.
    + reflexivity.
    + apply IH. intros g Hg. apply Hok. now right.
    + destruct (Hok f (or_introl eq_refl)) as [p Hp]. congruence.
Qed.

End Loop.

Section Run.

Variable open_video : string -> option video.
Variable wait_key : nat -> Z.
Variable transform_frame : frame -> image.

Local Abbreviation detect_video :=
  (detect_video open_video wait_key transform_frame).
Local Abbreviation body_of := (body_of open_video wait_key transform_frame).
Local Abbreviation factor_of := (factor_of open_video).
Local Abbreviation opening := (opening open_video).

(** The call is the opening, the loop and, when the loop returns, the
    closing. *)
Lemma detect_video_unfold (model : Model) (input_file output_file : string)
      (fps : Z) :
  detect_video model input_file output_file fps =
  match snd (body_of model input_file) with
  | Returned _ =>
      (opening input_file output_file fps
         ++ fst (body_of model input_file) ++ closing, Returned tt)
  | Raised e =>
      (opening input_file output_file fps ++ fst (body_of model input_file),
       Raised e)
  end.
Proof.
  unfold Video.detect_video, body_of, factor_of, opening, closing.
  rewrite !bind_emit. simpl.
  destruct (frame_loop _ _ _ _ _ _) as [t [[]|e]]; reflexivity.
Qed.

Lemma frames_read_run (pre body post : list event) :
  frames_read pre = [] -> frames_read post = [] ->
  frames_read (pre ++ body ++ post) = frames_read body.
Proof.
  unfold frames_read. intros Hpre Hpost.
  now rewrite !flat_map_app, Hpre, Hpost, app_nil_r.
Qed.

Lemma frames_written_run (pre body post : list event) :
  frames_written pre = [] -> frames_written post = [] ->
  frames_written (pre ++ body ++ post) = frames_written body.
Proof.
  unfold frames_written. intros Hpre Hpost.
  now rewrite !flat_map_app, Hpre, Hpost, app_nil_r.
Qed.

(** Reads and writes of a call are those of its loop. *)
Lemma detect_video_frames (model : Model) (input_file output_file : string)
      (fps : Z) :
  let run := detect_video model input_file output_file fps in
  frames_read (trace run) = frames_read (fst (body_of model input_file)) /\
  frames_written (trace run) = frames_written (fst (body_of model input_file)).
Proof.
  simpl. rewrite detect_video_unfold.
  destruct (snd (body_of model input_file)); unfold trace; cbn [fst].
  - split; [apply frames_read_run | apply frames_written_run]; reflexivity.
  - rewrite <- (app_nil_r (fst (body_of model input_file))) at 1 3.
    split; [apply frames_read_run | apply frames_written_run]; reflexivity.
Qed.



(** When the detector answers on every frame of the source the call
    returns; with no quit key it has then read the whole source. *)
Lemma detect_video_returns (model : Model) (input_file output_file : string)
      (fps : Z) :
  (forall f, In f (frames_of (open_video input_file)) ->
             exists p, predict_top model (transform_frame f) = Returned p) ->
  result (detect_video model input_file output_file fps) = Returned tt.
Proof.
  intros Hok. rewrite detect_video_unfold.
  unfold Video.body_of. rewrite (loop_total_detector _ _ _ _ _ _ Hok).
  reflexivity.
Qed.

(** C8. A source that cannot be opened raises nothing here: the sink is
    still created (with frame size (0, 0)), the one read reports no frame,
    nothing is written, both are released and the call returns. *)
Theorem detect_video_unopened_source
        (model : Model) (input_file output_file : string) (fps : Z) :
  open_video input_file = None ->
  detect_video model input_file output_file fps =
  ([VideoCapture input_file;
    VideoWriter output_file "DIVX" fps (0, 0);
    ReadFrame None;
    ReleaseCapture; ReleaseWriter; DestroyAllWindows],
   Returned tt).
Proof.
  intros Hopen. unfold Video.detect_video. rewrite Hopen. reflexivity.
Qed.

(** C9, as the code has it.  Source and sink are acquired first, before
    anything is read.  The loop releases neither.  On every path on which
    the call returns, source exhausted or quit key seen, it ends by
    releasing the source and then the sink; when a detector call raises, the
    exception leaves the call with neither released.  Once a quit answer has
    been seen nothing more is read. *)
Theorem detect_video_release_discipline
        (model : Model) (input_file output_file : string) (fps : Z) :
  let run := detect_video model input_file output_file fps in
  exists body tail,
    trace run = opening input_file output_file fps ++ body ++ tail /\
    existsb is_release body = false /\
    (forall u, result run = Returned u -> tail = closing) /\
    (forall e, result run = Raised e -> tail = []) /\
    existsb is_read (after_quit (trace run)) = false.
Proof.
  simpl. rewrite detect_video_unfold.
  pose proof (loop_no_release wait_key transform_frame model
                (factor_of input_file) (frames_of (open_video input_file)) 0)
    as Hrel.
  pose proof (loop_after_quit wait_key transform_frame model
                (factor_of input_file) (frames_of (open_video input_file)) 0)
    as Haq.
  fold (body_of model input_file) in Hrel, Haq.
  exists (fst (body_of model input_file)).
  destruct (snd (body_of model input_file)) as [u|e];
    unfold trace, result; cbn [fst snd].
  - exists closing. repeat split; try discriminate; try assumption.
    change (opening input_file output_file fps
              ++ fst (body_of model input_file) ++ closing)
      with (VideoCapture input_file
            :: VideoWriter output_file "DIVX" fps
                 (get_width (open_video input_file),
                  get_height (open_video input_file))
            :: (fst (body_of model input_file) ++ closing)).
    simpl after_quit. rewrite after_quit_app, Haq.
    destruct (existsb is_quit (fst (body_of model input_file))); reflexivity.
  - exists []. rewrite app_nil_r.
    repeat split; try discriminate; try assumption.
    change (opening input_file output_file fps
              ++ fst (body_of model input_file))
      with (VideoCapture input_file
            :: VideoWriter output_file "DIVX" fps
                 (get_width (open_video input_file),
                  get_height (open_video input_file))
            :: fst (body_of model input_file)).
    simpl after_quit. now rewrite Haq.
Qed.

Lemma written_rectangles (model : Model) (input_file output_file : string)
      (fps : Z) :
  let run := detect_video model input_file output_file fps in
  Forall (fun out =>
            exists r p,
              In r (frames_read (trace run)) /\
              predict_top model (transform_frame r) = Returned p /\
              rectangles out =
                rectangles r ++
                map (fun b => scale_box b (factor_of input_file)) (raw_boxes p))
         (frames_written (trace run)).
Proof.
  simpl.
  destruct (detect_video_frames model input_file output_file fps) as [-> ->].
  eapply Forall_impl; [|apply loop_written].
  intros out (r & Hin & p & Hp & ->). exists r, p.
  repeat split; try assumption. apply annotate_rectangles.
Qed.

(** C4, as the code has it.  The factor is min(height, width) / 800 of the
    source, and every rectangle drawn on a written frame is a box of the
    detector's answer for that frame multiplied, coordinate by coordinate,
    by that factor (not by its inverse).  Multiplying by the factor undoes a
    division by it, which is how the coordinates return from the resized
    frame to the original one. *)
Theorem detect_video_rescales_by_factor
        (model : Model) (input_file output_file : string) (fps : Z) :
  let run := detect_video model input_file output_file fps in
  let h := get_height (open_video input_file) in
  let w := get_width (open_video input_file) in
  let factor := (inject_Z (Z.min h w) / 800)%Q in
  Forall (fun out =>
            exists r p,
              In r (frames_read (trace run)) /\
              predict_top model (transform_frame r) = Returned p /\
              rectangles out =
                rectangles r ++ map (fun b => scale_box b factor) (raw_boxes p))
         (frames_written (trace run)) /\
  (0 < Z.min h w ->
   forall b, box_eq (scale_box (scale_box b (/ factor)) factor) b).
Proof.
  simpl. split.
  - apply written_rectangles.
  - intros Hpos b. apply scale_box_inverse.
    unfold Qeq, Qdiv, Qinv, Qmult, inject_Z. simpl. lia.
Qed.

(** C5. When the factor is 1, that is when the short side of the source is
    800, the rectangles drawn on each written frame have the coordinates of
    the boxes the detector returned for it. *)
Theorem detect_video_unit_factor_keeps_boxes
        (model : Model) (input_file output_file : string) (fps : Z) :
  (factor_of input_file == 1)%Q ->
  let run := detect_video model input_file output_file fps in
  Z.min (get_height (open_video input_file))
        (get_width (open_video input_file)) = 800 /\
  Forall (fun out =>
            exists r p boxes,
              In r (frames_read (trace run)) /\
              predict_top model (transform_frame r) = Returned p /\
              rectangles out = rectangles r ++ boxes /\
              Forall2 box_eq boxes (raw_boxes p))
         (frames_written (trace run)).
Proof.
  intros Hone. simpl. split.
  - now apply scale_down_factor_one.
  - eapply Forall_impl; [|apply written_rectangles].
    intros out (r & p & Hin & Hp & Hrect).
    exists r, p, (map (fun b => scale_box b (factor_of input_file)) (raw_boxes p)).
    repeat split; try assumption.
    clear Hrect. induction (raw_boxes p) as [|b bs IH]; simpl; constructor.
    + now apply scale_box_one.
    + exact IH.
Qed.

End Run.

(** *** Concrete runs *)

Import Samples.

Example clip_run :
  detect_video disk no_key to_tensor two_cats "clip.mp4" "out.avi" 30
  = (opening disk "clip.mp4" "out.avi" 30
       ++ flat_map (fun f =>
                      [ReadFrame (Some f); PredictTop (to_tensor f);
                       WriteFrame
                         (annotate (scale_down_factor 1600 2000) f
                            (unzip_preds [cat_high]));
                       WaitKey 1 (-1)]) (cap_frames clip)
       ++ [ReadFrame None] ++ closing,
     Returned tt).
Proof. reflexivity. Qed.

Example quit_run_stops_reading :
  frames_read
    (trace (detect_video disk q_on_second to_tensor two_cats
                         "clip.mp4" "out.avi" 30))
  = [still 0; still 1].
Proof. reflexivity. Qed.


Lemma detect_video_unopened_source_witness :
  detect_video disk no_key to_tensor two_cats "missing.mp4" "out.avi" 30
  = ([VideoCapture "missing.mp4"; VideoWriter "out.avi" "DIVX" 30 (0, 0);
      ReadFrame None; ReleaseCapture; ReleaseWriter; DestroyAllWindows],
     Returned tt).
Proof.
  apply (detect_video_unopened_source disk no_key to_tensor two_cats
           "missing.mp4" "out.avi" 30).
  reflexivity.
Defined.

(** C9 as stated fails: with a detector that raises on the first frame the
    call is left by the exception and neither release call has been made. *)
Lemma detect_video_detector_error_skips_release :
  let run := detect_video disk no_key to_tensor broken
                          "clip.mp4" "out.avi" 30 in
  result run = Raised (ModelError 1) /\
  ~ In ReleaseCapture (trace run) /\
  ~ In ReleaseWriter (trace run).
Proof.
  cbv zeta. split; [reflexivity|].
  split; intros H; vm_compute in H; intuition discriminate.
Qed.

Lemma detect_video_release_discipline_witness :
  let run := detect_video disk q_on_second to_tensor two_cats
                          "clip.mp4" "out.avi" 30 in
  exists body,
    trace run = opening disk "clip.mp4" "out.avi" 30 ++ body ++ closing /\
    existsb is_release body = false.
Proof.
  destruct (detect_video_release_discipline
              disk q_on_second to_tensor two_cats "clip.mp4" "out.avi" 30)
    as (body & tail & Ht & Hrel & Hret & _ & _).
  exists body. rewrite (Hret tt eq_refl) in Ht. split; assumption.
Defined.

(** C4 as stated fails: on a 2000 x 1600 source the factor is 2 and the
    detector's box (5, 6, 7, 9) is drawn as (10, 12, 14, 18), not as the box
    divided by 2. *)
Lemma detect_video_inverse_factor_counterexample :
  let run := detect_video disk no_key to_tensor two_cats
                          "clip.mp4" "out.avi" 30 in
  let factor := scale_down_factor 1600 2000 in
  exists out,
    hd_error (frames_written (trace run)) = Some out /\
    predict_top two_cats (to_tensor (still 0))
      = Returned (unzip_preds [cat_high]) /\
    Forall2 box_eq (rectangles out) [mkBox 10 12 14 18] /\
    ~ Forall2 box_eq (rectangles out)
        (map (fun b => scale_box b (/ factor)) (raw_boxes (unzip_preds [cat_high]))).
Proof.
  cbv zeta. eexists. split; [reflexivity|]. split; [reflexivity|]. split.
  - constructor; [|constructor]. unfold box_eq. simpl. repeat split.
  - intros H. inversion H as [|? ? ? ? Hb _]; subst.
    destruct Hb as [Hb _]. vm_compute in Hb. discriminate.
Qed.

Lemma detect_video_rescales_by_factor_witness :
  let factor := scale_down_factor 1600 2000 in
  box_eq (scale_box (scale_box (mkBox 5 6 7 9) (/ factor)) factor)
         (mkBox 5 6 7 9).
Proof.
  destruct (detect_video_rescales_by_factor
              disk no_key to_tensor two_cats "clip.mp4" "out.avi" 30)
    as [_ Hinv].
  exact (Hinv eq_refl (mkBox 5 6 7 9)).
Defined.

Lemma detect_video_unit_factor_keeps_boxes_witness :
  let run := detect_video disk no_key to_tensor two_cats
                          "small.mp4" "out.avi" 30 in
  Forall (fun out =>
            exists r p boxes,
              In r (frames_read (trace run)) /\
              predict_top two_cats (to_tensor r) = Returned p /\
              rectangles out = rectangles r ++ boxes /\
              Forall2 box_eq boxes (raw_boxes p))
         (frames_written (trace run)).
Proof.
  apply (detect_video_unit_factor_keeps_boxes
           disk no_key to_tensor two_cats "small.mp4" "out.avi" 30).
  reflexivity.
Defined.

End VideoFacts.

(** ** plot_prediction_grid *)

Module GridFacts.

Import Grid.

Section Cells.

Variable to_pil_reversed : image -> image.
Variable model : Model.

Local Abbreviation plot_cell := (plot_cell to_pil_reversed model).
Local Abbreviation cell_events := (cell_events to_pil_reversed model).
Local Abbreviation plot_prediction_grid :=
  (plot_prediction_grid to_pil_reversed model).

Local Abbreviation answers_all := (answers_all model).

Lemma plot_boxes (ax : axes_ref) (index : Z) (ps : list (string * Box * Q)) :
  for_each ps (fun p _ => plot_box ax index p) tt =
  (flat_map (box_events ax index) ps, Returned tt).
Proof.
  induction ps as [|[[label box] score] ps IH]; simpl.
  - reflexivity.
  - rewrite IH. reflexivity.
Qed.

Lemma plot_cell_ok (pre post : list image) (img : image) (p : predictions)
      (dim : Z * Z) (i j : Z) :
  predict_top model img = Returned p ->
  plot_cell (pre ++ img :: post) dim i j (len pre) =
  (cell_events dim ((i, j), (len pre, img)), Returned (len pre + 1)).
Proof.
  intros Hp. unfold Grid.plot_cell, Grid.cell_events, answer_of.
  rewrite getitem_nth. unfold lift, call.
  rewrite bind_returned. cbn [fst snd app]. rewrite Hp.
  rewrite bind_returned, bind_emit, plot_boxes, bind_returned.
  unfold ret, display. cbn [fst snd app]. now rewrite app_nil_r.
Qed.

Lemma len_snoc {A} (l : list A) (a : A) : len (l ++ [a]) = len l + 1.
Proof. unfold len. rewrite length_app. simpl. lia. Qed.

Lemma len_cons {A} (l : list A) (a : A) : len (a :: l) = len l + 1.
Proof. unfold len. simpl List.length. lia. Qed.

(** The loop over a schedule as long as the images still to visit. *)
Lemma schedule_loop (dim : Z * Z) (sched : list (Z * Z))
      (pre rest : list image) :
  List.length sched = List.length rest ->
  answers_all rest ->
  for_each sched
           (fun ij index => plot_cell (pre ++ rest) dim (fst ij) (snd ij) index)
           (len pre) =
  (flat_map (cell_events dim) (combine sched (enumerate (len pre) rest)),
   Returned (len pre + len rest)).
Proof.
  revert pre rest.
  induction sched as [|[i j] sched IH]; intros pre rest Hlen Hok.
  - destruct rest; [|discriminate]. simpl. unfold ret, len. simpl.
    now rewrite Z.add_0_r.
  - destruct rest as [|img rest]; [discriminate|].
    destruct (Hok img (or_introl eq_refl)) as [p Hp].
    cbn [for_each fst snd]. rewrite (plot_cell_ok pre rest img p dim i j Hp).
    rewrite bind_returned.
    replace (pre ++ img :: rest) with ((pre ++ [img]) ++ rest)
      by (now rewrite <- app_assoc).
    rewrite <- (len_snoc pre img).
    rewrite (IH (pre ++ [img]) rest).
    + cbn [fst snd enumerate combine flat_map].
      rewrite len_snoc, len_cons. f_equal. f_equal. lia.
    + simpl in Hlen. lia.
    + intros x Hx. apply Hok. now right.
Qed.

Lemma schedule_length (r c : Z) :
  0 <= r -> 0 <= c -> List.length (schedule (r, c)) = Z.to_nat (r * c).
Proof.
  intros Hr Hc. unfold schedule. cbn [fst snd].
  rewrite (flat_map_length_uniform _ (Z.to_nat c)).
  - unfold range. rewrite length_map, length_seq. nia.
  - intros x. unfold range. now rewrite !length_map, length_seq.
Qed.

Lemma cells_images (sched : list (Z * Z)) (start : Z) (images : list image) :
  List.length sched = List.length images ->
  map (fun cell => snd (snd cell)) (combine sched (enumerate start images))
  = images.
Proof.
  revert start images.
  induction sched as [|ij sched IH]; intros start [|img images] Hlen;
    try discriminate; simpl.
  - reflexivity.
  - f_equal. apply IH. simpl in Hlen. lia.
Qed.

(** The whole call on a layout of non-negative sides that matches the
    number of images, with a detector that answers. *)
Lemma grid_trace (images : list image) (r c : Z) (figsize : option (Q * Q)) :
  0 <= r -> 0 <= c -> r * c = len images -> answers_all images ->
  plot_prediction_grid images (Some (r, c)) figsize =
  (Subplots r c figsize
     :: flat_map (cell_events (r, c)) (cells (r, c) images) ++ [PltShow],
   Returned tt).
Proof.
  intros Hr Hc Hlen Hok. unfold Grid.plot_prediction_grid. cbn [fst snd].
  rewrite (proj2 (Z.eqb_eq _ _) Hlen). cbn [negb].
  rewrite bind_emit. rewrite for_each_nested.
  pose proof (schedule_loop (r, c) (schedule (r, c)) [] images) as Hloop.
  pose proof (schedule_length r c Hr Hc) as Hsched.
  unfold cells. unfold schedule in *. cbn [fst snd app] in *.
  change (len []) with 0 in Hloop.
  rewrite Hloop; [reflexivity| |exact Hok].
  rewrite Hsched, Hlen. unfold len. now rewrite Nat2Z.id.
Qed.

(** *** What one cell contributes to each reading of the trace *)

Lemma detected_boxes (ax : axes_ref) (index : Z) (ps : list (string * Box * Q)) :
  detected (flat_map (box_events ax index) ps) = [] /\
  shown (flat_map (box_events ax index) ps) = [].
Proof.
  induction ps as [|[[l b] s] ps [IHd IHs]]; simpl; split; auto.
Qed.

Lemma patches_boxes (ax : axes_ref) (index : Z) (ps : list (string * Box * Q)) :
  patches (flat_map (box_events ax index) ps)
  = map (fun p => (ax, box_patch (snd (fst p)))) ps /\
  texts (flat_map (box_events ax index) ps)
  = map (fun p => (ax, box_text p)) ps /\
  titles (flat_map (box_events ax index) ps)
  = map (fun _ => (ax, ("Image " ++ str index)%string)) ps.
Proof.
  induction ps as [|[[l b] s] ps (IHp & IHx & IHt)]; simpl.
  - repeat split.
  - fold (patches (flat_map (box_events ax index) ps)).
    fold (texts (flat_map (box_events ax index) ps)).
    fold (titles (flat_map (box_events ax index) ps)).
    rewrite IHp, IHx, IHt. repeat split.
Qed.

Lemma cell_readings (dim : Z * Z) (i j index : Z) (img : image) :
  let ax := correct_axis dim i j in
  let ps := zip_preds (answer_of model img) in
  let t := cell_events dim ((i, j), (index, img)) in
  detected t = [img] /\
  shown t = [(ax, display to_pil_reversed img)] /\
  patches t = map (fun p => (ax, box_patch (snd (fst p)))) ps /\
  texts t = map (fun p => (ax, box_text p)) ps /\
  titles t = map (fun _ => (ax, ("Image " ++ str (index + 1))%string)) ps.
Proof.
  cbv zeta. unfold Grid.cell_events.
  destruct (detected_boxes (correct_axis dim i j) (index + 1)
              (zip_preds (answer_of model img))) as [Hd Hs].
  destruct (patches_boxes (correct_axis dim i j) (index + 1)
              (zip_preds (answer_of model img))) as (Hp & Hx & Ht).
  unfold detected, shown, patches, texts, titles in *.
  rewrite !flat_map_app. cbn [flat_map app].
  rewrite Hd, Hs, Hp, Hx, Ht. repeat split.
Qed.

Lemma readings_cells {X} (proj : list event -> list X)
      (per_image : image -> list X) (dim : Z * Z)
      (cs : list ((Z * Z) * (Z * image))) :
  proj [] = [] ->
  (forall a b, proj (a ++ b) = proj a ++ proj b) ->
  (forall cell, proj (cell_events dim cell) = per_image (snd (snd cell))) ->
  proj (flat_map (cell_events dim) cs)
  = flat_map per_image (map (fun cell => snd (snd cell)) cs).
Proof.
  intros Hnil Happ Hcell. induction cs as [|cell cs IH]; simpl.
  - exact Hnil.
  - now rewrite Happ, Hcell, IH.
Qed.

Lemma flat_map_ext_on {A B} (f g : A -> list B) (l : list A) :
  (forall a, In a l -> f a = g a) -> flat_map f l = flat_map g l.
Proof.
  intros H. induction l as [|a l IH]; simpl; [reflexivity|].
  rewrite (H a (or_introl eq_refl)), IH; [reflexivity|].
  intros b Hb. apply H. now right.
Qed.

(** The readings of a whole call on a matching layout. *)
Lemma grid_readings (images : list image) (r c : Z) (figsize : option (Q * Q)) :
  0 <= r -> 0 <= c -> r * c = len images -> answers_all images ->
  let run := plot_prediction_grid images (Some (r, c)) figsize in
  result run = Returned tt /\
  detected (trace run) = images /\
  map snd (shown (trace run)) = map (display to_pil_reversed) images /\
  map snd (patches (trace run))
  = flat_map (fun img => map box_patch (raw_boxes (answer_of model img)))
             images /\
  map snd (texts (trace run))
  = flat_map (fun img => map box_text (zip_preds (answer_of model img)))
             images.
Proof.
  intros Hr Hc Hlen Hok. cbv zeta.
  rewrite (grid_trace images r c figsize Hr Hc Hlen Hok).
  unfold trace, result. cbn [fst snd].
  assert (Himgs : map (fun cell : Z * Z * (Z * image) => snd (snd cell))
                      (cells (r, c) images) = images).
  { apply cells_images. rewrite schedule_length by assumption.
    rewrite Hlen. unfold len. now rewrite Nat2Z.id. }
  split; [reflexivity|].
  repeat split.
  - change (detected (Subplots r c figsize :: ?t)) with (detected t).
    unfold detected at 1. rewrite flat_map_app. cbn [flat_map app].
    rewrite app_nil_r. fold (detected (flat_map (cell_events (r, c))
                                                (cells (r, c) images))).
    rewrite (readings_cells detected (fun img => [img])).
    + rewrite Himgs. clear. induction images; simpl; congruence.
    + reflexivity.
    + intros a b. apply flat_map_app.
    + intros [[i j] [index img]]. apply cell_readings.
  - change (shown (Subplots r c figsize :: ?t)) with (shown t).
    unfold shown at 1. rewrite flat_map_app. cbn [flat_map app].
    rewrite app_nil_r. fold (shown (flat_map (cell_events (r, c))
                                             (cells (r, c) images))).
    rewrite (readings_cells (fun t => map snd (shown t))
               (fun img => [display to_pil_reversed img])).
    + rewrite Himgs. clear. induction images; simpl; congruence.
    + reflexivity.
    + intros a b. unfold shown. now rewrite flat_map_app, map_app.
    + intros [[i j] [index img]].
      destruct (cell_readings (r, c) i j index img) as (_ & -> & _).
      reflexivity.
  - change (patches (Subplots r c figsize :: ?t)) with (patches t).
    unfold patches at 1. rewrite flat_map_app. cbn [flat_map app].
    rewrite app_nil_r. fold (patches (flat_map (cell_events (r, c))
                                               (cells (r, c) images))).
    rewrite (readings_cells (fun t => map snd (patches t))
               (fun img => map box_patch (raw_boxes (answer_of model img)))).
    + now rewrite Himgs.
    + reflexivity.
    + intros a b. unfold patches. now rewrite flat_map_app, map_app.
    + intros [[i j] [index img]].
      destruct (cell_readings (r, c) i j index img) as (_ & _ & -> & _).
      cbn [snd]. unfold raw_boxes. now rewrite !map_map.
  - change (texts (Subplots r c figsize :: ?t)) with (texts t).
    unfold texts at 1. rewrite flat_map_app. cbn [flat_map app].
    rewrite app_nil_r. fold (texts (flat_map (cell_events (r, c))
                                             (cells (r, c) images))).
    rewrite (readings_cells (fun t => map snd (texts t))
               (fun img => map box_text (zip_preds (answer_of model img)))).
    + now rewrite Himgs.
    + reflexivity.
    + intros a b. unfold texts. now rewrite flat_map_app, map_app.
    + intros [[i j] [index img]].
      destruct (cell_readings (r, c) i j index img) as (_ & _ & _ & -> & _).
      cbn [snd]. rewrite map_map. apply map_ext. reflexivity.
Qed.

Lemma grid_titles (images : list image) (r c : Z) (figsize : option (Q * Q)) :
  0 <= r -> 0 <= c -> r * c = len images -> answers_all images ->
  titles (trace (plot_prediction_grid images (Some (r, c)) figsize))
  = flat_map (fun cell : (Z * Z) * (Z * image) =>
                map (fun _ => (correct_axis (r, c) (fst (fst cell)) (snd (fst cell)),
                               ("Image " ++ str (fst (snd cell) + 1))%string))
                    (zip_preds (answer_of model (snd (snd cell)))))
             (cells (r, c) images).
Proof.
  intros Hr Hc Hlen Hok.
  rewrite (grid_trace images r c figsize Hr Hc Hlen Hok).
  unfold trace. cbn [fst].
  change (titles (Subplots r c figsize :: ?t)) with (titles t).
  unfold titles at 1. rewrite flat_map_app. cbn [flat_map app].
  rewrite app_nil_r. rewrite flat_map_flat_map.
  apply flat_map_ext. intros [[i j] [index img]].
  apply cell_readings.
Qed.


(** C2, as the code has it.  On a matching layout, for every image the call
    asks the detector for [predict_top] (what [top] answers here), not for
    the full [predict], and every triple of that answer is overlaid: its box
    as a rectangle, its label and its score rounded to two decimals as text,
    image after image in list order. *)
Theorem plot_prediction_grid_overlays_top_predictions
        (images : list image) (r c : Z) (figsize : option (Q * Q))
        (top : image -> predictions) :
  0 <= r -> 0 <= c -> r * c = len images ->
  (forall img, In img images -> predict_top model img = Returned (top img)) ->
  let run := plot_prediction_grid images (Some (r, c)) figsize in
  detected (trace run) = images /\
  map snd (patches (trace run))
  = flat_map (fun img => map box_patch (raw_boxes (top img))) images /\
  map snd (texts (trace run))
  = flat_map (fun img => map box_text (zip_preds (top img))) images.
Proof.
  intros Hr Hc Hlen Htop.
  assert (Hok : answers_all images).
  { intros img Hin. exists (top img). now apply Htop. }
  destruct (grid_readings images r c figsize Hr Hc Hlen Hok)
    as (_ & Hd & _ & Hp & Hx).
  cbv zeta. rewrite Hd, Hp, Hx. repeat split.
  - apply flat_map_ext_on. intros img Hin.
    unfold answer_of. now rewrite (Htop img Hin).
  - apply flat_map_ext_on. intros img Hin.
    unfold answer_of. now rewrite (Htop img Hin).
Qed.

End Cells.

(** *** Concrete calls *)

Import Samples.

Example two_by_two_axes :
  map fst (shown (trace (plot_prediction_grid as_raster two_cats
                           [RasterImage 0; TensorImage 1;
                            RasterImage 2; TensorImage 3]
                           (Some (2, 2)) None)))
  = [AxesAt2 0 0; AxesAt2 0 1; AxesAt2 1 0; AxesAt2 1 1].
Proof. reflexivity. Qed.

Example one_column_titles :
  titles (trace (plot_prediction_grid as_raster two_cats
                   [RasterImage 0; TensorImage 1] None None))
  = [(AxesAt 0, "Image 1"%string); (AxesAt 1, "Image 2"%string)].
Proof. reflexivity. Qed.



Lemma plot_prediction_grid_overlays_top_predictions_witness :
  map snd (patches (trace (plot_prediction_grid as_raster two_cats
                             [RasterImage 0; TensorImage 1] (Some (1, 2))
                             None)))
  = [box_patch (mkBox 5 6 7 9); box_patch (mkBox 5 6 7 9)].
Proof.
  destruct (plot_prediction_grid_overlays_top_predictions
              as_raster two_cats [RasterImage 0; TensorImage 1] 1 2 None
              (fun _ => unzip_preds [cat_high]))
    as (_ & Hp & _).
  - discriminate.
  - discriminate.
  - reflexivity.
  - intros img _. reflexivity.
  - exact Hp.
Defined.

(** C2 as stated fails: the detector sees two cats in the image and
    [predict] returns both, but the grid shows only the one [predict_top]
    keeps. *)
Lemma plot_prediction_grid_not_full_detection :
  let img := RasterImage 0 in
  let run := plot_prediction_grid as_raster two_cats [img] None None in
  predict two_cats img = Returned (unzip_preds [cat_low; cat_high]) /\
  map snd (patches (trace run)) = [box_patch (mkBox 5 6 7 9)] /\
  map snd (patches (trace run))
  <> map box_patch (raw_boxes (unzip_preds [cat_low; cat_high])).
Proof.
  cbv zeta. split; [reflexivity|]. split; [reflexivity|]. discriminate.
Qed.

(** C7 at an image without predictions: the call returns, detection ran on
    the image and the image is shown in its cell, but the cell has no
    title, because set_title sits in the loop over the predictions. *)
Theorem plot_prediction_grid_untitled_cell :
  let img := RasterImage 0 in
  let run := plot_prediction_grid as_raster blind [img] None None in
  run = ([Subplots 1 1 None; PredictTop img; Imshow Axes img; PltShow],
         Returned tt) /\
  titles (trace run) = [].
Proof. cbv zeta. split; reflexivity. Qed.

End GridFacts.

(** ** show_labeled_image *)

Module OverlayFacts.

Import Overlay.

Section Shown.

Variable to_pil : image -> image.

Local Abbreviation show_labeled_image := (show_labeled_image to_pil).

(** What [imshow] receives. *)
Local Abbreviation shown_as image :=
  (if is_tensor image then to_pil image else image).

Lemma plot_row_four (box : list Q) :
  List.length box = 4%nat ->
  plot_row box = ([AddPatch Axes (row_rectangle box)], Returned tt).
Proof.
  destruct box as [|x0 [|y0 [|x1 [|y1 [|]]]]]; try discriminate.
  reflexivity.
Qed.

Lemma plot_rows (rows : list (list Q)) :
  Forall (fun box => List.length box = 4%nat) rows ->
  for_each rows (fun box _ => plot_row box) tt =
  (map (fun box => AddPatch Axes (row_rectangle box)) rows, Returned tt).
Proof.
  induction 1 as [|box rows Hbox _ IH]; simpl.
  - reflexivity.
  - rewrite (plot_row_four box Hbox), bind_returned, IH. reflexivity.
Qed.

Lemma added_patches (ps : list patch) :
  added (map (fun p => AddPatch Axes p) ps) = ps.
Proof. induction ps as [|p ps IH]; simpl; congruence. Qed.

Lemma show_matrix (image : image) (rows : list (list Q)) :
  Forall (fun box => List.length box = 4%nat) rows ->
  show_labeled_image image (Mat rows) =
  (Subplots 1 1 None :: Imshow Axes (shown_as image)
     :: map (fun box => AddPatch Axes (row_rectangle box)) rows ++ [PltShow],
   Returned tt).
Proof.
  intros Hrows. unfold Overlay.show_labeled_image.
  rewrite !bind_emit. cbn [ndim Z.eqb Pos.eqb]. rewrite bind_ret.
  cbn [iter_rows]. rewrite (plot_rows rows Hrows), bind_returned.
  reflexivity.
Qed.

(** C6. A single box given as a tensor of shape (4,) is treated as the
    one-row tensor holding it: exactly one rectangle is added, anchored at
    (box[0], box[1]), of width box[2] - box[0] and height box[3] - box[1].
    A tensor of N rows of four gets exactly N rectangles, the k-th one built
    from the k-th row. *)
Theorem show_labeled_image_rectangles (image : image) :
  (forall x0 y0 x1 y1 : Q,
     let run := show_labeled_image image (Vec [x0; y0; x1; y1]) in
     run = show_labeled_image image (Mat [[x0; y0; x1; y1]]) /\
     result run = Returned tt /\
     added (trace run) = [red_rectangle (x0, y0) (x1 - x0) (y1 - y0)]) /\
  (forall rows : list (list Q),
     Forall (fun box => List.length box = 4%nat) rows ->
     let run := show_labeled_image image (Mat rows) in
     result run = Returned tt /\
     List.length (added (trace run)) = List.length rows /\
     added (trace run) = map row_rectangle rows).
Proof.
  split.
  - intros x0 y0 x1 y1. cbv zeta. repeat split.
  - intros rows Hrows. cbv zeta. rewrite (show_matrix image rows Hrows).
    unfold trace, result. cbn [fst snd].
    assert (Hadd : added (Subplots 1 1 None :: Imshow Axes (shown_as image)
                            :: map (fun box => AddPatch Axes (row_rectangle box))
                                   rows ++ [PltShow])
                   = map row_rectangle rows).
    { unfold added. cbn [flat_map app]. rewrite flat_map_app. cbn [flat_map].
      rewrite app_nil_r. fold (added (map (fun box => AddPatch Axes
                                                        (row_rectangle box)) rows)).
      rewrite <- (map_map row_rectangle (fun p => AddPatch Axes p)).
      apply added_patches. }
    rewrite Hadd. repeat split. apply length_map.
Qed.

(** C10. A one-dimensional [boxes] whose length is not 4 makes the call
    fail at [view(1, 4)], after the image was shown and before any rectangle
    is added; the call on a one-dimensional [boxes] returns exactly when the
    length is 4. *)
Theorem show_labeled_image_vector_length (image : image) (xs : list Q) :
  (List.length xs <> 4%nat ->
   show_labeled_image image (Vec xs)
   = ([Subplots 1 1 None; Imshow Axes (shown_as image)],
      Raised (RuntimeError (view_message (List.length xs))))) /\
  (result (show_labeled_image image (Vec xs)) = Returned tt
   <-> List.length xs = 4%nat).
Proof.
  assert (Hbad : List.length xs <> 4%nat ->
                 show_labeled_image image (Vec xs)
                 = ([Subplots 1 1 None; Imshow Axes (shown_as image)],
                    Raised (RuntimeError (view_message (List.length xs))))).
  { intros Hne. unfold Overlay.show_labeled_image.
    rewrite !bind_emit. cbn [ndim Z.eqb Pos.eqb]. unfold view_1_4.
    cbn [numel]. rewrite (proj2 (Nat.eqb_neq _ _) Hne). reflexivity. }
  split; [exact Hbad|]. split.
  - intros Hret. destruct (Nat.eq_dec (List.length xs) 4) as [|Hne];
      [assumption|].
    rewrite (Hbad Hne) in Hret. discriminate.
  - intros Hlen.
    destruct xs as [|x0 [|y0 [|x1 [|y1 [|]]]]]; try discriminate.
    reflexivity.
Qed.

End Shown.

(** *** Concrete calls *)

Import Samples.

Example ragged_rows_stop_at_the_short_row :
  show_labeled_image as_raster (RasterImage 0) (Mat [[1; 2; 3; 5]; [1; 2; 3]]%Q)
  = ([Subplots 1 1 None; Imshow Axes (RasterImage 0);
      AddPatch Axes (red_rectangle (1, 2) 2 3)%Q],
     Raised IndexError).
Proof. reflexivity. Qed.

Lemma show_labeled_image_rectangles_witness :
  added (trace (show_labeled_image as_raster (TensorImage 0)
                  (Mat [[1; 2; 3; 5]; [4; 4; 8; 6]]%Q)))
  = [row_rectangle [1; 2; 3; 5]%Q; row_rectangle [4; 4; 8; 6]%Q] /\
  added (trace (show_labeled_image as_raster (TensorImage 0)
                  (Vec [1; 2; 3; 5]%Q)))
  = [red_rectangle (1, 2) (3 - 1) (5 - 2)]%Q.
Proof.
  destruct (show_labeled_image_rectangles as_raster (TensorImage 0))
    as [Hone Hmany].
  split.
  - apply (Hmany [[1; 2; 3; 5]; [4; 4; 8; 6]]%Q).
    repeat constructor.
  - apply (Hone 1 2 3 5)%Q.
Defined.

Lemma show_labeled_image_vector_length_witness :
  show_labeled_image as_raster (RasterImage 0) (Vec [1; 2; 3]%Q)
  = ([Subplots 1 1 None; Imshow Axes (RasterImage 0)],
     Raised (RuntimeError "shape '[1, 4]' is invalid for input of size 3")).
Proof.
  apply (show_labeled_image_vector_length as_raster (RasterImage 0)
           [1; 2; 3]%Q).
  discriminate.
Defined.

End OverlayFacts.

(** ** detect_video: how a call ends, and what it has done by then *)

Module VideoRuns.

Import Video VideoFacts.

Section Loop.

Variable wait_key : nat -> Z.
Variable transform_frame : frame -> image.
Variable model : Model.
Variable factor : Q.

Local Abbreviation loop :=
  (frame_loop wait_key transform_frame model factor).
Local Abbreviation written_from :=
  (written_from transform_frame model factor).

Ltac turn f n :=
  rewrite (frame_loop_cons wait_key transform_frame model factor);
  destruct (predict_top model (transform_frame f)) eqn:Hpred;
  [ destruct (Z.land (wait_key n) 255 =? 113) eqn:Hkey | ]; simpl.

(** Whatever the outcome, detection was asked once for each frame read, on
    its transformed version, and the keyboard once for each frame written. *)
Lemma loop_protocol (pending : list frame) (n : nat) :
  detections (fst (loop pending n))
  = map transform_frame (frames_read (fst (loop pending n))) /\
  List.length (polls (fst (loop pending n)))
  = List.length (frames_written (fst (loop pending n))).
Proof.
  revert n. induction pending as [|f pending IH]; intros n.
  - split; reflexivity.
  - turn f n.
    + split; reflexivity.
    + destruct (IH (S n)) as [Hd Hp]. rewrite Hd, Hp. split; reflexivity.
    + split; reflexivity.
Qed.

(** The key q first seen after frame [k]. *)
Lemma loop_quit_at (k : nat) (pending : list frame) (n : nat) :
  (k < List.length pending)%nat ->
  (forall m, (m < k)%nat -> key_of (wait_key (n + m)) <> 113) ->
  key_of (wait_key (n + k)) = 113 ->
  (forall f, In f (firstn (S k) pending) ->
             exists p, predict_top model (transform_frame f) = Returned p) ->
  snd (loop pending n) = Returned tt /\
  frames_read (fst (loop pending n)) = firstn (S k) pending /\
  Forall2 written_from (firstn (S k) pending)
          (frames_written (fst (loop pending n))).
Proof.
  revert pending n.
  induction k as [|k IH]; intros [|f pending] n Hlen Hbefore Hat Hok;
    try (simpl in Hlen; lia).
  - rewrite Nat.add_0_r in Hat. unfold key_of in Hat.
    destruct (Hok f (or_introl eq_refl)) as [p Hp].
    turn f n; try congruence.
    + repeat split. constructor; [|constructor]. exists a. split; congruence.
    + apply Z.eqb_neq in Hkey. contradiction.
  - destruct (Hok f (or_introl eq_refl)) as [p Hp].
    assert (Hn : key_of (wait_key n) <> 113).
    { specialize (Hbefore 0%nat ltac:(lia)). now rewrite Nat.add_0_r in Hbefore. }
    unfold key_of in Hn.
    turn f n; try congruence.
    + apply Z.eqb_eq in Hkey. contradiction.
    + destruct (IH pending (S n)) as (Hres & Hread & Hwritten).
      * simpl in Hlen. lia.
      * intros m Hm. replace (S n + m)%nat with (n + S m)%nat by lia.
        apply Hbefore. lia.
      * replace (S n + k)%nat with (n + S k)%nat by lia. exact Hat.
      * intros g Hg. apply Hok. now right.
      * split; [exact Hres|]. split.
        -- now rewrite Hread.
        -- constructor; [|exact Hwritten]. exists a. split; congruence.
Qed.

(** No key q at all. *)
Lemma loop_without_quit (top : frame -> predictions) (pending : list frame)
      (n : nat) :
  (forall m, key_of (wait_key m) <> 113) ->
  (forall f, In f pending ->
             predict_top model (transform_frame f) = Returned (top f)) ->
  snd (loop pending n) = Returned tt /\
  frames_read (fst (loop pending n)) = pending /\
  frames_written (fst (loop pending n))
  = map (fun f => annotate factor f (top f)) pending /\
  List.length (reads (fst (loop pending n))) = S (List.length pending).
Proof.
  intros Hnever. revert n.
  induction pending as [|f pending IH]; intros n Htop.
  - repeat split.
  - pose proof (Htop f (or_introl eq_refl)) as Hf.
    pose proof (Hnever n) as Hn. unfold key_of in Hn.
    turn f n; try congruence.
    + apply Z.eqb_eq in Hkey. contradiction.
    + destruct (IH (S n)) as (Hres & Hread & Hwritten & Hreads).
      { intros g Hg. apply Htop. now right. }
      rewrite Hread, Hwritten, Hreads.
      repeat split; try assumption. f_equal. f_equal. congruence.
Qed.

(** The detector raising on the frame after [good]. *)
Lemma loop_detector_error (good : list frame) (bad : frame)
      (rest : list frame) (e : exn) (n : nat) :
  (forall m, (m < List.length good)%nat -> key_of (wait_key (n + m)) <> 113) ->
  (forall f, In f good ->
             exists p, predict_top model (transform_frame f) = Returned p) ->
  predict_top model (transform_frame bad) = Raised e ->
  snd (loop (good ++ bad :: rest) n) = Raised e /\
  frames_read (fst (loop (good ++ bad :: rest) n)) = good ++ [bad] /\
  Forall2 written_from good (frames_written (fst (loop (good ++ bad :: rest) n))).
Proof.
  revert n. induction good as [|f good IH]; intros n Hkeys Hok Hbad.
  - cbn [app]. turn bad n; try congruence.
    injection Hbad as ->.
    repeat split. constructor.
  - cbn [app]. destruct (Hok f (or_introl eq_refl)) as [p Hp].
    assert (Hn : key_of (wait_key n) <> 113).
    { specialize (Hkeys 0%nat ltac:(simpl; lia)).
      now rewrite Nat.add_0_r in Hkeys. }
    unfold key_of in Hn.
    turn f n; try congruence.
    + apply Z.eqb_eq in Hkey. contradiction.
    + destruct (IH (S n)) as (Hres & Hread & Hwritten).
      * intros m Hm. replace (S n + m)%nat with (n + S m)%nat by lia.
        apply Hkeys. simpl. lia.
      * intros g Hg. apply Hok. now right.
      * exact Hbad.
      * split; [exact Hres|]. split.
        -- now rewrite Hread.
        -- constructor; [|exact Hwritten]. exists a. split; congruence.
Qed.

End Loop.

Section Run.

Variable open_video : string -> option video.
Variable wait_key : nat -> Z.
Variable transform_frame : frame -> image.

Local Abbreviation detect_video :=
  (detect_video open_video wait_key transform_frame).
Local Abbreviation body_of := (body_of open_video wait_key transform_frame).
Local Abbreviation factor_of := (factor_of open_video).
Local Abbreviation opening := (opening open_video).
Local Abbreviation frames_in input_file :=
  (frames_of (open_video input_file)).

(** A call has the outcome of its loop. *)
Lemma detect_video_result (model : Model) (input_file output_file : string)
      (fps : Z) :
  result (detect_video model input_file output_file fps)
  = snd (body_of model input_file).
Proof.
  rewrite detect_video_unfold.
  destruct (snd (body_of model input_file)) as [[]|e]; reflexivity.
Qed.

(** A reading that sees nothing in the opening and closing calls sees in a
    call what it sees in the loop. *)
Lemma reading_of_run {X} (pick : event -> list X) (model : Model)
      (input_file output_file : string) (fps : Z) :
  flat_map pick (opening input_file output_file fps) = [] ->
  flat_map pick closing = [] ->
  flat_map pick (trace (detect_video model input_file output_file fps))
  = flat_map pick (fst (body_of model input_file)).
Proof.
  intros Hopen Hclose. rewrite detect_video_unfold.
  destruct (snd (body_of model input_file)); unfold trace; cbn [fst];
    rewrite !flat_map_app, Hopen; try rewrite Hclose;
    now rewrite ?app_nil_r.
Qed.

(** X1.  The quit key is honoured after the frame in hand has been written.  If
    the low byte of the waitKey answer is that of q for the first time at
    frame number k (counted from 0) and the detector answers up to there,
    the call returns having read and written exactly the first k + 1 frames
    of the source. *)
Theorem detect_video_stops_at_quit
        (model : Model) (input_file output_file : string) (fps : Z)
        (k : nat) :
  (k < List.length (frames_in input_file))%nat ->
  (forall m, (m < k)%nat -> key_of (wait_key m) <> 113) ->
  key_of (wait_key k) = 113 ->
  (forall f, In f (firstn (S k) (frames_in input_file)) ->
             exists p, predict_top model (transform_frame f) = Returned p) ->
  let run := detect_video model input_file output_file fps in
  result run = Returned tt /\
  frames_read (trace run) = firstn (S k) (frames_in input_file) /\
  List.length (frames_written (trace run)) = S k /\
  Forall2 (written_from transform_frame model (factor_of input_file))
          (firstn (S k) (frames_in input_file)) (frames_written (trace run)).
Proof.
  intros Hk Hbefore Hat Hok. cbv zeta.
  destruct (loop_quit_at wait_key transform_frame model (factor_of input_file)
              k (frames_in input_file) 0 Hk Hbefore Hat Hok)
    as (Hres & Hread & Hwritten).
  destruct (detect_video_frames open_video wait_key transform_frame
              model input_file output_file fps) as [Hr Hw].
  rewrite detect_video_result. fold (body_of model input_file) in *.
  rewrite Hr, Hw. repeat split; try assumption.
  apply Forall2_length in Hwritten. rewrite <- Hwritten.
  apply firstn_length_le. lia.
Qed.

(** X2.  With no key q ever down and a detector that answers, the call returns
    after one read past the end of the source, and the sink holds, frame for
    frame, the source with the detector's boxes drawn. *)
Theorem detect_video_annotates_whole_source
        (model : Model) (input_file output_file : string) (fps : Z)
        (top : frame -> predictions) :
  (forall m, key_of (wait_key m) <> 113) ->
  (forall f, In f (frames_in input_file) ->
             predict_top model (transform_frame f) = Returned (top f)) ->
  let run := detect_video model input_file output_file fps in
  result run = Returned tt /\
  frames_written (trace run)
  = map (fun f => annotate (factor_of input_file) f (top f))
        (frames_in input_file) /\
  reads (trace run) = map Some (frames_in input_file) ++ [None].
Proof.
  intros Hnever Htop. cbv zeta.
  destruct (loop_without_quit wait_key transform_frame model
              (factor_of input_file) top (frames_in input_file) 0
              Hnever Htop) as (Hres & Hread & Hwritten & Hreads).
  destruct (detect_video_frames open_video wait_key transform_frame
              model input_file output_file fps) as [_ Hw].
  rewrite detect_video_result. fold (body_of model input_file) in *.
  rewrite Hw. repeat split; try assumption.
  unfold reads. rewrite reading_of_run by reflexivity.
  fold (reads (fst (body_of model input_file))).
  clear Hw Hres Hread Hwritten Hreads.
  unfold Video.body_of. generalize 0%nat.
  induction (frames_in input_file) as [|f fs IH]; intros n.
  - reflexivity.
  - rewrite (frame_loop_cons wait_key transform_frame model).
    rewrite (Htop f (or_introl eq_refl)).
    pose proof (Hnever n) as Hn. unfold key_of in Hn.
    apply Z.eqb_neq in Hn. rewrite Hn. cbn [fst].
    change (reads (?a :: ?b :: ?c :: ?d :: ?t)) with (reads [a] ++ reads t).
    cbn [reads flat_map app map]. f_equal.
    fold (reads (fst (frame_loop wait_key transform_frame model
                        (factor_of input_file) fs (S n)))).
    apply IH. intros g Hg. apply Htop. now right.
Qed.

(** X3.  A detector error leaves the call as it was raised, with the run up to
    there kept: the frames before the failing one are in the sink, the
    failing frame was read and is not written, and the rest of the source
    is not read. *)
Theorem detect_video_detector_error
        (model : Model) (input_file output_file : string) (fps : Z)
        (good : list frame) (bad : frame) (rest : list frame) (e : exn) :
  frames_in input_file = good ++ bad :: rest ->
  (forall m, (m < List.length good)%nat -> key_of (wait_key m) <> 113) ->
  (forall f, In f good ->
             exists p, predict_top model (transform_frame f) = Returned p) ->
  predict_top model (transform_frame bad) = Raised e ->
  let run := detect_video model input_file output_file fps in
  result run = Raised e /\
  frames_read (trace run) = good ++ [bad] /\
  Forall2 (written_from transform_frame model (factor_of input_file))
          good (frames_written (trace run)).
Proof.
  intros Hframes Hkeys Hok Hbad. cbv zeta.
  destruct (loop_detector_error wait_key transform_frame model
              (factor_of input_file) good bad rest e 0 Hkeys Hok Hbad)
    as (Hres & Hread & Hwritten).
  destruct (detect_video_frames open_video wait_key transform_frame
              model input_file output_file fps) as [Hr Hw].
  rewrite detect_video_result. unfold Video.body_of in *.
  rewrite Hframes in *. rewrite Hr, Hw. repeat split; assumption.
Qed.

(** X4.  Whatever the outcome of a call, detection has been asked exactly once
    for each frame read, in reading order and always on the transformed
    frame, and waitKey exactly once for each frame written. *)
Theorem detect_video_call_protocol
        (model : Model) (input_file output_file : string) (fps : Z) :
  let run := detect_video model input_file output_file fps in
  detections (trace run) = map transform_frame (frames_read (trace run)) /\
  List.length (polls (trace run)) = List.length (frames_written (trace run)).
Proof.
  cbv zeta.
  destruct (loop_protocol wait_key transform_frame model
              (factor_of input_file) (frames_in input_file) 0) as [Hd Hp].
  fold (body_of model input_file) in Hd, Hp.
  destruct (detect_video_frames open_video wait_key transform_frame
              model input_file output_file fps) as [Hr Hw].
  rewrite Hr, Hw. unfold detections, polls.
  rewrite !reading_of_run by reflexivity. split; assumption.
Qed.

Lemma scale_down_factor_nonneg (h w : Z) :
  0 <= h -> 0 <= w -> (0 <= scale_down_factor h w)%Q.
Proof.
  intros Hh Hw. unfold scale_down_factor, scaled_size, Qle, Qdiv, Qinv, Qmult,
    inject_Z. simpl. lia.
Qed.

Lemma scale_box_ordered (b : Box) (factor : Q) :
  (0 <= factor)%Q -> ordered b -> ordered (scale_box b factor).
Proof.
  intros Hf [Hx Hy]. unfold ordered, scale_box. simpl.
  split; apply Qmult_le_compat_r; assumption.
Qed.

(** X5.  Rescaling keeps boxes the right way round.  On a source of non-negative
    height and width, if in every answer of the detector the first corner
    of each box is not beyond the second, the same holds of every rectangle
    the call draws. *)
Theorem detect_video_keeps_boxes_ordered
        (model : Model) (input_file output_file : string) (fps : Z) :
  0 <= get_height (open_video input_file) ->
  0 <= get_width (open_video input_file) ->
  (forall img p, predict_top model img = Returned p ->
                 Forall ordered (raw_boxes p)) ->
  let run := detect_video model input_file output_file fps in
  Forall (fun out =>
            exists r boxes,
              In r (frames_read (trace run)) /\
              rectangles out = rectangles r ++ boxes /\
              Forall ordered boxes)
         (frames_written (trace run)).
Proof.
  intros Hh Hw Hord. cbv zeta.
  eapply Forall_impl;
    [|apply (written_rectangles open_video wait_key transform_frame)].
  intros out (r & p & Hin & Hp & Hrect).
  exists r, (map (fun b => scale_box b (factor_of input_file)) (raw_boxes p)).
  repeat split; try assumption.
  specialize (Hord _ _ Hp). clear Hrect.
  induction Hord as [|b bs Hb _ IH]; simpl; constructor; [|exact IH].
  apply scale_box_ordered; [|exact Hb].
  now apply scale_down_factor_nonneg.
Qed.

End Run.

(** *** Concrete runs *)

Import Samples.

Lemma detect_video_stops_at_quit_witness :
  let run := detect_video disk q_on_second to_tensor two_cats
                          "clip.mp4" "out.avi" 30 in
  frames_read (trace run) = [still 0; still 1] /\
  List.length (frames_written (trace run)) = 2%nat.
Proof.
  destruct (detect_video_stops_at_quit disk q_on_second to_tensor two_cats
              "clip.mp4" "out.avi" 30 1)
    as (_ & Hread & Hlen & _).
  - simpl. lia.
  - intros m Hm. assert (m = 0%nat) as -> by lia. discriminate.
  - reflexivity.
  - intros f _. eexists. reflexivity.
  - split; assumption.
Defined.

Lemma detect_video_annotates_whole_source_witness :
  let run := detect_video disk no_key to_tensor two_cats
                          "clip.mp4" "out.avi" 30 in
  frames_written (trace run)
  = map (fun f => annotate (scale_down_factor 1600 2000) f
                           (unzip_preds [cat_high]))
        (cap_frames clip) /\
  reads (trace run) = map Some (cap_frames clip) ++ [None].
Proof.
  destruct (detect_video_annotates_whole_source disk no_key to_tensor two_cats
              "clip.mp4" "out.avi" 30 (fun _ => unzip_preds [cat_high]))
    as (_ & Hwritten & Hreads).
  - intros m. discriminate.
  - intros f _. reflexivity.
  - split; assumption.
Defined.

Lemma detect_video_detector_error_witness :
  let run := detect_video disk no_key to_tensor (fails_on 1)
                          "clip.mp4" "out.avi" 30 in
  result run = Raised (ModelError 7) /\
  frames_read (trace run) = [still 0; still 1] /\
  List.length (frames_written (trace run)) = 1%nat.
Proof.
  destruct (detect_video_detector_error disk no_key to_tensor (fails_on 1)
              "clip.mp4" "out.avi" 30 [still 0] (still 1) [still 2]
              (ModelError 7))
    as (Hres & Hread & Hwritten).
  - reflexivity.
  - intros m _. discriminate.
  - intros f [<-|[]]. eexists. reflexivity.
  - reflexivity.
  - split; [exact Hres|]. split; [exact Hread|].
    apply Forall2_length in Hwritten. now rewrite <- Hwritten.
Defined.

Lemma detect_video_keeps_boxes_ordered_witness :
  let run := detect_video disk no_key to_tensor two_cats
                          "clip.mp4" "out.avi" 30 in
  Forall (fun out =>
            exists r boxes,
              In r (frames_read (trace run)) /\
              rectangles out = rectangles r ++ boxes /\
              Forall ordered boxes)
         (frames_written (trace run)).
Proof.
  apply (detect_video_keeps_boxes_ordered disk no_key to_tensor two_cats
           "clip.mp4" "out.avi" 30).
  - discriminate.
  - discriminate.
  - intros img p Hp. injection Hp as <-.
    constructor; [|constructor]. split; discriminate.
Defined.

End VideoRuns.

(** ** plot_prediction_grid: positions, edge layouts and failures *)

Module GridRuns.

Import Grid GridFacts.

Lemma in_range (x n : Z) : In x (range n) <-> 0 <= x < n.
Proof.
  unfold range. rewrite in_map_iff. split.
  - intros (k & <- & Hk). apply in_seq in Hk. lia.
  - intros Hx. exists (Z.to_nat x). split; [lia|]. apply in_seq. lia.
Qed.

Lemma in_schedule (r c i j : Z) :
  In (i, j) (schedule (r, c)) <-> 0 <= i < r /\ 0 <= j < c.
Proof.
  unfold schedule. cbn [fst snd]. rewrite in_flat_map. split.
  - intros (i' & Hi & Hj). apply in_map_iff in Hj.
    destruct Hj as (j' & Heq & Hj). injection Heq as -> ->.
    split; now apply in_range.
  - intros [Hi Hj]. exists i. split; [now apply in_range|].
    apply in_map_iff. exists j. split; [reflexivity | now apply in_range].
Qed.


(** X9.  Every position the loops visit gets an axes of its own: two visits that
    draw on the same axes are the same position. *)
Theorem correct_axis_separates_positions (r c i j i' j' : Z) :
  In (i, j) (schedule (r, c)) ->
  In (i', j') (schedule (r, c)) ->
  correct_axis (r, c) i j = correct_axis (r, c) i' j' ->
  (i, j) = (i', j').
Proof.
  intros H H'. apply in_schedule in H. apply in_schedule in H'.
  unfold correct_axis. cbn [fst snd].
  destruct (Z.leb_spec r 1), (Z.leb_spec c 1); cbn [andb]; intros Heq.
  - f_equal; lia.
  - injection Heq as ->. f_equal. lia.
  - injection Heq as ->. f_equal. lia.
  - injection Heq as -> ->. reflexivity.
Qed.

(** X10.  The way [ax] is taken out of [axes] follows the shape of the grid: the
    bare [axes] only for the 1 x 1 grid, one index below the longer side for
    a single row or column, a pair of indices within the sides otherwise. *)
Theorem correct_axis_fits_grid (r c i j : Z) :
  In (i, j) (schedule (r, c)) ->
  match correct_axis (r, c) i j with
  | Axes => r = 1 /\ c = 1
  | AxesAt k =>
      (r = 1 /\ 1 < c /\ k = j /\ 0 <= k < c) \/
      (c = 1 /\ 1 < r /\ k = i /\ 0 <= k < r)
  | AxesAt2 a b => 1 < r /\ 1 < c /\ a = i /\ b = j
  end.
Proof.
  intros H. apply in_schedule in H.
  unfold correct_axis. cbn [fst snd].
  destruct (Z.leb_spec r 1), (Z.leb_spec c 1); cbn [andb]; lia.
Qed.

Section Calls.

Variable to_pil_reversed : image -> image.
Variable model : Model.

Local Abbreviation plot_cell := (plot_cell to_pil_reversed model).
Local Abbreviation cell_events := (cell_events to_pil_reversed model).
Local Abbreviation plot_prediction_grid :=
  (plot_prediction_grid to_pil_reversed model).
Local Abbreviation answers_all := (answers_all model).


Lemma plot_cell_raise (pre post : list image) (img : image) (e : exn)
      (dim : Z * Z) (i j : Z) :
  predict_top model img = Raised e ->
  plot_cell (pre ++ img :: post) dim i j (len pre)
  = ([PredictTop img], Raised e).
Proof.
  intros He. unfold Grid.plot_cell.
  rewrite getitem_nth. unfold lift, call.
  rewrite bind_returned. cbn [fst snd app]. now rewrite He.
Qed.

Lemma schedule_loop_raise (dim : Z * Z) (good : list image) (bad : image)
      (rest : list image) (e : exn) (sched : list (Z * Z))
      (pre : list image) :
  (List.length good < List.length sched)%nat ->
  answers_all good ->
  predict_top model bad = Raised e ->
  for_each sched
           (fun ij index =>
              plot_cell (pre ++ good ++ bad :: rest) dim (fst ij) (snd ij) index)
           (len pre)
  = (flat_map (cell_events dim) (combine sched (enumerate (len pre) good))
       ++ [PredictTop bad],
     Raised e).
Proof.
  revert sched pre.
  induction good as [|g good IH]; intros [|[i j] sched] pre Hlen Hok He;
    try (simpl in Hlen; lia).
  - cbn [for_each app fst snd]. now rewrite (plot_cell_raise pre rest bad e).
  - destruct (Hok g (or_introl eq_refl)) as [p Hp].
    cbn [for_each app fst snd].
    rewrite (plot_cell_ok to_pil_reversed model pre (good ++ bad :: rest)
               g p dim i j Hp).
    rewrite bind_returned.
    replace (pre ++ g :: good ++ bad :: rest)
      with ((pre ++ [g]) ++ good ++ bad :: rest)
      by (now rewrite <- app_assoc).
    rewrite <- (len_snoc pre g).
    rewrite (IH sched (pre ++ [g])).
    + cbn [fst snd enumerate combine flat_map].
      rewrite len_snoc. now rewrite app_assoc.
    + simpl in Hlen. lia.
    + intros x Hx. apply Hok. now right.
    + exact He.
Qed.

Lemma cells_images_short (sched : list (Z * Z)) (start : Z)
      (images : list image) :
  (List.length images <= List.length sched)%nat ->
  map (fun cell => snd (snd cell)) (combine sched (enumerate start images))
  = images /\
  map snd (combine sched (enumerate start images)) = enumerate start images.
Proof.
  revert start images.
  induction sched as [|ij sched IH]; intros start [|img images] Hlen;
    try (simpl in Hlen; lia); simpl.
  - split; reflexivity.
  - split; reflexivity.
  - destruct (IH (start + 1) images) as [H1 H2]; [simpl in Hlen; lia|].
    now rewrite H1, H2.
Qed.

Lemma cells_never_show (dim : Z * Z) (cs : list ((Z * Z) * (Z * image))) :
  existsb is_show (flat_map (cell_events dim) cs) = false.
Proof.
  induction cs as [|[[i j] [index img]] cs IH]; simpl; [reflexivity|].
  rewrite existsb_app, IH, orb_false_r.
  induction (zip_preds (answer_of model img)) as [|[[l b] s] ps IHp];
    simpl; [reflexivity | exact IHp].
Qed.

(** X8.  A detector error in the middle of the grid leaves the call as it was
    raised.  The images before the failing one have been detected and shown,
    the failing one has been handed to the detector and is not shown, the
    later ones are not touched, and the figure is never displayed. *)
Theorem plot_prediction_grid_detector_error
        (good : list image) (bad : image) (rest : list image) (e : exn)
        (r c : Z) (figsize : option (Q * Q)) :
  0 <= r -> 0 <= c -> r * c = len (good ++ bad :: rest) ->
  answers_all good ->
  predict_top model bad = Raised e ->
  let run := plot_prediction_grid (good ++ bad :: rest) (Some (r, c)) figsize in
  result run = Raised e /\
  detected (trace run) = good ++ [bad] /\
  map snd (shown (trace run)) = map (display to_pil_reversed) good /\
  existsb is_show (trace run) = false.
Proof.
  intros Hr Hc Hlen Hok He. cbv zeta.
  assert (Hsched : List.length (schedule (r, c))
                   = List.length (good ++ bad :: rest)).
  { rewrite schedule_length by assumption. rewrite Hlen. unfold len.
    now rewrite Nat2Z.id. }
  assert (Hshort : (List.length good < List.length (schedule (r, c)))%nat).
  { rewrite Hsched, length_app. simpl. lia. }
  pose proof (schedule_loop_raise (r, c) good bad rest e (schedule (r, c)) []
                Hshort Hok He) as Hloop.
  cbn [app] in Hloop. change (len []) with 0 in Hloop.
  destruct (cells_images_short (schedule (r, c)) 0 good ltac:(lia))
    as [Himgs _].
  set (cs := combine (schedule (r, c)) (enumerate 0 good)) in *.
  assert (Hrun : plot_prediction_grid (good ++ bad :: rest) (Some (r, c)) figsize
                 = (Subplots r c figsize
                      :: flat_map (cell_events (r, c)) cs ++ [PredictTop bad],
                    Raised e)).
  { unfold Grid.plot_prediction_grid. cbn [fst snd].
    rewrite (proj2 (Z.eqb_eq _ _) Hlen). cbn [negb].
    rewrite bind_emit, for_each_nested.
    unfold schedule in Hloop. cbn [fst snd] in Hloop.
    rewrite Hloop. reflexivity. }
  rewrite Hrun. unfold trace, result. cbn [fst snd].
  split; [reflexivity|]. split; [|split].
  - change (detected (Subplots r c figsize :: ?t)) with (detected t).
    unfold detected at 1. rewrite flat_map_app. cbn [flat_map app].
    fold (detected (flat_map (cell_events (r, c)) cs)).
    rewrite (readings_cells to_pil_reversed model detected (fun img => [img])).
    + rewrite Himgs. f_equal. clear. induction good; simpl; congruence.
    + reflexivity.
    + intros a b. apply flat_map_app.
    + intros [[i j] [index img]]. apply cell_readings.
  - change (shown (Subplots r c figsize :: ?t)) with (shown t).
    unfold shown at 1. rewrite flat_map_app. cbn [flat_map app].
    rewrite app_nil_r. fold (shown (flat_map (cell_events (r, c)) cs)).
    rewrite (readings_cells to_pil_reversed model
               (fun t => map snd (shown t))
               (fun img => [display to_pil_reversed img])).
    + rewrite Himgs. clear. induction good; simpl; congruence.
    + reflexivity.
    + intros a b. unfold shown. now rewrite flat_map_app, map_app.
    + intros [[i j] [index img]].
      destruct (cell_readings to_pil_reversed model (r, c) i j index img)
        as (_ & -> & _).
      reflexivity.
  - cbn [existsb is_show orb]. rewrite existsb_app, cells_never_show.
    reflexivity.
Qed.

Lemma titles_of_cells (dim : Z * Z) (top : image -> predictions)
      (cs : list ((Z * Z) * (Z * image))) :
  (forall cell, In cell cs ->
                predict_top model (snd (snd cell))
                = Returned (top (snd (snd cell)))) ->
  map snd
      (flat_map (fun cell : (Z * Z) * (Z * image) =>
                   map (fun _ : string * Box * Q =>
                          (correct_axis dim (fst (fst cell)) (snd (fst cell)),
                           ("Image " ++ str (fst (snd cell) + 1))%string))
                       (zip_preds (answer_of model (snd (snd cell)))))
                cs)
  = flat_map (fun ki : Z * image =>
                repeat ("Image " ++ str (fst ki + 1))%string
                       (triples (top (snd ki))))
             (map snd cs).
Proof.
  induction cs as [|[[i j] [index img]] cs IH]; intros Htop.
  - reflexivity.
  - cbn [flat_map map fst snd]. rewrite map_app, IH.
    + f_equal. unfold answer_of, triples.
      pose proof (Htop _ (or_introl eq_refl)) as Himg. cbn [snd] in Himg.
      rewrite Himg, map_map. cbn [snd].
      induction (zip_preds (top img)) as [|p ps IHp]; [reflexivity|].
      cbn [map List.length repeat]. now rewrite IHp.
    + intros cell Hcell. apply Htop. now right.
Qed.

(** X12.  The title given to an image names its place in the list: on a matching
    layout the titles set are, image after image, 'Image k' for the k-th
    image (counted from 1), once for each prediction of that image, whatever
    the shape of the grid. *)
Theorem plot_prediction_grid_titles_count_from_one
        (images : list image) (r c : Z) (figsize : option (Q * Q))
        (top : image -> predictions) :
  0 <= r -> 0 <= c -> r * c = len images ->
  (forall img, In img images -> predict_top model img = Returned (top img)) ->
  map snd (titles (trace (plot_prediction_grid images (Some (r, c)) figsize)))
  = flat_map (fun ki : Z * image =>
                repeat ("Image " ++ str (fst ki + 1))%string
                       (triples (top (snd ki))))
             (enumerate 0 images).
Proof.
  intros Hr Hc Hlen Htop.
  assert (Hok : answers_all images).
  { intros img Hin. exists (top img). now apply Htop. }
  rewrite (grid_titles to_pil_reversed model images r c figsize Hr Hc Hlen Hok).
  assert (Hsched : (List.length images <= List.length (schedule (r, c)))%nat).
  { rewrite schedule_length by assumption. rewrite Hlen. unfold len.
    rewrite Nat2Z.id. lia. }
  destruct (cells_images_short (schedule (r, c)) 0 images Hsched)
    as [Himgs Hsnd].
  rewrite (titles_of_cells (r, c) top).
  - unfold cells. now rewrite Hsnd.
  - intros cell Hcell. apply Htop. unfold cells in Hcell.
    rewrite <- Himgs. apply in_map_iff.
    exists cell. split; [reflexivity | exact Hcell].
Qed.



End Calls.

(** *** Concrete calls *)

Import Samples.

Lemma correct_axis_separates_positions_witness :
  correct_axis (2, 3) 1 2 = AxesAt2 1 2 /\ (1, 2) = (1, 2).
Proof.
  split; [reflexivity|].
  apply (correct_axis_separates_positions 2 3 1 2 1 2).
  - apply in_schedule. lia.
  - apply in_schedule. lia.
  - reflexivity.
Defined.

Lemma correct_axis_fits_grid_witness :
  correct_axis (1, 3) 0 2 = AxesAt 2 /\
  ((1 = 1 /\ 1 < 3 /\ 2 = 2 /\ 0 <= 2 < 3) \/
   (3 = 1 /\ 1 < 1 /\ 2 = 0 /\ 0 <= 2 < 1)).
Proof.
  split; [reflexivity|].
  apply (correct_axis_fits_grid 1 3 0 2). apply in_schedule. lia.
Defined.


Lemma plot_prediction_grid_detector_error_witness :
  let run := plot_prediction_grid as_raster (fails_on 1)
               [TensorImage 0; RasterImage 1; RasterImage 2; RasterImage 3]
               (Some (2, 2)) None in
  result run = Raised (ModelError 7) /\
  detected (trace run) = [TensorImage 0; RasterImage 1] /\
  map snd (shown (trace run)) = [RasterImage 0] /\
  existsb is_show (trace run) = false.
Proof.
  apply (plot_prediction_grid_detector_error as_raster (fails_on 1)
           [TensorImage 0] (RasterImage 1) [RasterImage 2; RasterImage 3]
           (ModelError 7) 2 2 None).
  - discriminate.
  - discriminate.
  - reflexivity.
  - intros img [<-|[]]. eexists. reflexivity.
  - reflexivity.
Defined.

Lemma plot_prediction_grid_titles_count_from_one_witness :
  map snd (titles (trace (plot_prediction_grid as_raster two_cats
                            [RasterImage 0; TensorImage 1; RasterImage 2]
                            (Some (1, 3)) None)))
  = ["Image 1"; "Image 2"; "Image 3"]%string.
Proof.
  apply (plot_prediction_grid_titles_count_from_one as_raster two_cats
           [RasterImage 0; TensorImage 1; RasterImage 2] 1 3 None
           (fun _ => unzip_preds [cat_high])).
  - discriminate.
  - discriminate.
  - reflexivity.
  - intros img _. reflexivity.
Defined.


End GridRuns.

(** ** show_labeled_image: rows of other widths, and what is never called *)

Module OverlayRuns.

Import Overlay OverlayFacts.

Section Shown.

Variable to_pil : image -> image.

Local Abbreviation show_labeled_image := (show_labeled_image to_pil).
Local Abbreviation shown_as image :=
  (if is_tensor image then to_pil image else image).

(** A row of at least four entries gets its rectangle; a shorter one raises
    at the first index it lacks, before any call. *)
Lemma plot_row_cases (box : list Q) :
  ((4 <= List.length box)%nat /\
   plot_row box = ([AddPatch Axes (row_rectangle box)], Returned tt)) \/
  ((List.length box < 4)%nat /\ plot_row box = ([], Raised IndexError)).
Proof.
  destruct box as [|x0 [|y0 [|x1 [|y1 more]]]].
  - right. split; [simpl; lia | reflexivity].
  - right. split; [simpl; lia | reflexivity].
  - right. split; [simpl; lia | reflexivity].
  - right. split; [simpl; lia | reflexivity].
  - left. split; [simpl; lia | reflexivity].
Qed.

Lemma plot_rows_wide (rows : list (list Q)) :
  Forall (fun box => (4 <= List.length box)%nat) rows ->
  for_each rows (fun box _ => plot_row box) tt
  = (map (fun box => AddPatch Axes (row_rectangle box)) rows, Returned tt).
Proof.
  induction 1 as [|box rows Hbox _ IH]; simpl.
  - reflexivity.
  - destruct (plot_row_cases box) as [[_ ->]|[Hshort _]]; [|lia].
    rewrite bind_returned, IH. reflexivity.
Qed.

Lemma plot_rows_short (good : list (list Q)) (short : list Q)
      (rest : list (list Q)) :
  Forall (fun box => (4 <= List.length box)%nat) good ->
  (List.length short < 4)%nat ->
  for_each (good ++ short :: rest) (fun box _ => plot_row box) tt
  = (map (fun box => AddPatch Axes (row_rectangle box)) good,
     Raised IndexError).
Proof.
  intros Hgood Hshort. rewrite for_each_app, (plot_rows_wide good Hgood).
  rewrite bind_returned. cbn [for_each fst snd].
  destruct (plot_row_cases short) as [[Hwide _]|[_ ->]]; [lia|].
  rewrite bind_raised. cbn [fst snd]. now rewrite app_nil_r.
Qed.

(** X15.  Columns past the fourth are ignored: a tensor whose rows have four or
    more entries gets one rectangle per row, in order, and the rectangle of
    a row is that of its first four entries. *)
Theorem show_labeled_image_ignores_extra_columns
        (image : image) (rows : list (list Q)) :
  Forall (fun box => (4 <= List.length box)%nat) rows ->
  let run := show_labeled_image image (Mat rows) in
  result run = Returned tt /\
  added (trace run) = map row_rectangle (map (firstn 4) rows).
Proof.
  intros Hrows. cbv zeta. unfold Overlay.show_labeled_image.
  rewrite !bind_emit. cbn [ndim Z.eqb Pos.eqb]. rewrite bind_ret.
  cbn [iter_rows]. rewrite (plot_rows_wide rows Hrows), bind_returned.
  unfold trace, result. cbn [fst snd emit]. split; [reflexivity|].
  unfold added. cbn [flat_map app]. rewrite flat_map_app. cbn [flat_map].
  rewrite app_nil_r.
  clear image. induction Hrows as [|box rows Hbox _ IH]; [reflexivity|].
  cbn [map flat_map app]. rewrite IH. f_equal.
  destruct box as [|x0 [|y0 [|x1 [|y1 more]]]]; try (simpl in Hbox; lia).
  reflexivity.
Qed.

(** X16.  A row of fewer than four entries stops the call with an IndexError:
    the rectangles of the rows before it have been added and stay, no row
    after it is looked at, and the figure is not displayed. *)
Theorem show_labeled_image_short_row
        (image : image) (good : list (list Q)) (short : list Q)
        (rest : list (list Q)) :
  Forall (fun box => (4 <= List.length box)%nat) good ->
  (List.length short < 4)%nat ->
  show_labeled_image image (Mat (good ++ short :: rest))
  = (Subplots 1 1 None :: Imshow Axes (shown_as image)
       :: map (fun box => AddPatch Axes (row_rectangle box)) good,
     Raised IndexError).
Proof.
  intros Hgood Hshort. unfold Overlay.show_labeled_image.
  rewrite !bind_emit. cbn [ndim Z.eqb Pos.eqb]. rewrite bind_ret.
  cbn [iter_rows]. rewrite (plot_rows_short good short rest Hgood Hshort).
  rewrite bind_raised. reflexivity.
Qed.

Lemma plot_rows_plot_only (rows : list (list Q)) :
  forallb plot_only (fst (for_each rows (fun box _ => plot_row box) tt)) = true.
Proof.
  induction rows as [|box rows IH]; [reflexivity|].
  cbn [for_each].
  destruct (plot_row_cases box) as [[_ ->]|[_ ->]].
  - rewrite bind_returned. cbn [fst app forallb plot_only andb]. exact IH.
  - reflexivity.
Qed.

(** X17.  Whatever the image and the boxes, and however the call ends, it calls
    only the figure, imshow, add_patch on the one axes and show: never the
    detector, never a text or a title. *)
Theorem show_labeled_image_only_plots (image : image) (boxes : tensor) :
  forallb plot_only (trace (show_labeled_image image boxes)) = true.
Proof.
  unfold Overlay.show_labeled_image, trace. rewrite !bind_emit.
  cbn [fst forallb plot_only andb].
  destruct boxes as [xs|rows]; cbn [ndim Z.eqb Pos.eqb].
  - unfold view_1_4, lift. destruct (Nat.eqb (numel (Vec xs)) 4).
    + rewrite bind_returned. cbn [fst iter_rows flatten app].
      pose proof (plot_rows_plot_only [xs]) as Hrows.
      destruct (for_each [xs] (fun box _ => plot_row box) tt) as [t [[]|e]];
        cbn [fst] in *.
      * rewrite bind_returned. cbn [fst emit]. rewrite forallb_app, Hrows.
        reflexivity.
      * exact Hrows.
    + reflexivity.
  - rewrite bind_ret. cbn [iter_rows].
    pose proof (plot_rows_plot_only rows) as Hrows.
    destruct (for_each rows (fun box _ => plot_row box) tt) as [t [[]|e]];
      cbn [fst] in *.
    + rewrite bind_returned. cbn [fst emit]. rewrite forallb_app, Hrows.
      reflexivity.
    + exact Hrows.
Qed.

End Shown.

(** *** Concrete calls *)

Import Samples.

Lemma show_labeled_image_ignores_extra_columns_witness :
  added (trace (show_labeled_image as_raster (RasterImage 0)
                  (Mat [[1; 2; 3; 5; 9]; [4; 4; 8; 6; 7; 7]]%Q)))
  = [row_rectangle [1; 2; 3; 5]%Q; row_rectangle [4; 4; 8; 6]%Q].
Proof.
  apply (show_labeled_image_ignores_extra_columns as_raster (RasterImage 0)
           [[1; 2; 3; 5; 9]; [4; 4; 8; 6; 7; 7]]%Q).
  repeat constructor.
Defined.

Lemma show_labeled_image_short_row_witness :
  show_labeled_image as_raster (RasterImage 0)
                     (Mat [[1; 2; 3; 5]; [1; 2]; [4; 4; 8; 6]]%Q)
  = ([Subplots 1 1 None; Imshow Axes (RasterImage 0);
      AddPatch Axes (row_rectangle [1; 2; 3; 5]%Q)],
     Raised IndexError).
Proof.
  apply (show_labeled_image_short_row as_raster (RasterImage 0)
           [[1; 2; 3; 5]%Q] [1; 2]%Q [[4; 4; 8; 6]%Q]).
  - repeat constructor.
  - simpl. lia.
Defined.

End OverlayRuns.

(** ** plot_prediction_grid: row-major placement, and which errors leave it *)

Module GridOrder.

Import Grid GridFacts GridRuns.

Lemma nth_error_flat_map_uniform {A B} (f : A -> list B) (n : nat)
      (l : list A) (a b : nat) (x : A) :
  (forall y, List.length (f y) = n) ->
  nth_error l a = Some x -> (b < n)%nat ->
  nth_error (flat_map f l) (a * n + b) = nth_error (f x) b.
Proof.
  intros Hn. revert a.
  induction l as [|y l IH]; intros [|a] Hx Hb; try discriminate.
  - injection Hx as ->. cbn [flat_map Nat.mul Nat.add].
    apply nth_error_app1. now rewrite Hn.
  - cbn [flat_map]. rewrite nth_error_app2 by (rewrite Hn; simpl; lia).
    rewrite Hn. replace (S a * n + b - n)%nat with (a * n + b)%nat
      by (simpl; lia).
    now apply IH.
Qed.

Lemma nth_error_range (n : Z) (a : nat) :
  (a < Z.to_nat n)%nat -> nth_error (range n) a = Some (Z.of_nat a).
Proof.
  intros Ha. unfold range. rewrite nth_error_map.
  rewrite (nth_error_nth' _ 0%nat) by (now rewrite length_seq).
  now rewrite seq_nth.
Qed.

(** The position visited at step [a * cols + b] is row [a], column [b]. *)
Lemma nth_error_schedule (r c : Z) (a b : nat) :
  (a < Z.to_nat r)%nat -> (b < Z.to_nat c)%nat ->
  nth_error (schedule (r, c)) (a * Z.to_nat c + b)
  = Some (Z.of_nat a, Z.of_nat b).
Proof.
  intros Ha Hb. unfold schedule. cbn [fst snd].
  rewrite (nth_error_flat_map_uniform _ (Z.to_nat c) _ a b (Z.of_nat a)).
  - rewrite nth_error_map, (nth_error_range c b Hb). reflexivity.
  - intros y. unfold range. now rewrite !length_map, length_seq.
  - now apply nth_error_range.
  - exact Hb.
Qed.

Lemma nth_error_enumerate (start : Z) (images : list image) (k : nat) :
  nth_error (enumerate start images) k
  = option_map (fun img => (start + Z.of_nat k, img)) (nth_error images k).
Proof.
  revert start k. induction images as [|img images IH]; intros start [|k];
    try reflexivity.
  - cbn [enumerate nth_error option_map]. now rewrite Z.add_0_r.
  - cbn [enumerate nth_error]. rewrite IH.
    destruct (nth_error images k); [|reflexivity].
    cbn [option_map]. do 2 f_equal. lia.
Qed.

Lemma nth_error_combine {A B} (la : list A) (lb : list B) (k : nat)
      (x : A) (y : B) :
  nth_error la k = Some x -> nth_error lb k = Some y ->
  nth_error (combine la lb) k = Some (x, y).
Proof.
  revert lb k. induction la as [|a la IH]; intros [|b lb] [|k] Hx Hy;
    try discriminate.
  - injection Hx as ->. injection Hy as ->. reflexivity.
  - cbn [combine nth_error]. now apply IH.
Qed.

Section Calls.

Variable to_pil_reversed : image -> image.
Variable model : Model.

Local Abbreviation cell_events := (cell_events to_pil_reversed model).
Local Abbreviation plot_prediction_grid :=
  (plot_prediction_grid to_pil_reversed model).
Local Abbreviation answers_all := (answers_all model).

Lemma shown_cells (dim : Z * Z) (cs : list ((Z * Z) * (Z * image))) :
  shown (flat_map (cell_events dim) cs)
  = map (fun cell : (Z * Z) * (Z * image) =>
           (correct_axis dim (fst (fst cell)) (snd (fst cell)),
            display to_pil_reversed (snd (snd cell)))) cs.
Proof.
  induction cs as [|[[i j] [index img]] cs IH]; [reflexivity|].
  cbn [flat_map map fst snd]. unfold shown at 1. rewrite flat_map_app.
  change (flat_map _ (cell_events dim (i, j, (index, img))))
    with (shown (cell_events dim (i, j, (index, img)))).
  change (flat_map _ (flat_map (cell_events dim) cs))
    with (shown (flat_map (cell_events dim) cs)).
  rewrite IH.
  destruct (cell_readings to_pil_reversed model dim i j index img)
    as (_ & -> & _).
  reflexivity.
Qed.

(** X11.  Images fill the grid row by row.  On a matching layout, the image at
    list index a * cols + b, for a row a and a column b of the grid, is the
    one shown on the axes of row a and column b, and it is shown after the
    images of lower index. *)
Theorem plot_prediction_grid_row_major
        (images : list image) (r c : Z) (figsize : option (Q * Q))
        (a b : nat) (img : image) :
  0 <= r -> 0 <= c -> r * c = len images -> answers_all images ->
  (a < Z.to_nat r)%nat -> (b < Z.to_nat c)%nat ->
  nth_error images (a * Z.to_nat c + b) = Some img ->
  nth_error (shown (trace (plot_prediction_grid images (Some (r, c)) figsize)))
            (a * Z.to_nat c + b)
  = Some (correct_axis (r, c) (Z.of_nat a) (Z.of_nat b),
          display to_pil_reversed img).
Proof.
  intros Hr Hc Hlen Hok Ha Hb Himg.
  rewrite (grid_trace to_pil_reversed model images r c figsize Hr Hc Hlen Hok).
  unfold trace. cbn [fst].
  change (shown (Subplots r c figsize :: ?t)) with (shown t).
  unfold shown at 1. rewrite flat_map_app. cbn [flat_map app].
  rewrite app_nil_r.
  change (flat_map _ (flat_map (cell_events (r, c)) (cells (r, c) images)))
    with (shown (flat_map (cell_events (r, c)) (cells (r, c) images))).
  rewrite shown_cells, nth_error_map. unfold cells.
  rewrite (nth_error_combine _ _ _ (Z.of_nat a, Z.of_nat b)
             (0 + Z.of_nat (a * Z.to_nat c + b), img)).
  - reflexivity.
  - now apply nth_error_schedule.
  - rewrite nth_error_enumerate, Himg. reflexivity.
Qed.




End Calls.

(** *** Concrete calls *)

Import Samples.

Lemma plot_prediction_grid_row_major_witness :
  nth_error (shown (trace (plot_prediction_grid as_raster two_cats
                             [RasterImage 0; RasterImage 1; RasterImage 2;
                              RasterImage 3; RasterImage 4; RasterImage 5]
                             (Some (2, 3)) None)))
            (1 * Z.to_nat 3 + 2)
  = Some (AxesAt2 1 2, RasterImage 5).
Proof.
  apply (plot_prediction_grid_row_major as_raster two_cats
           [RasterImage 0; RasterImage 1; RasterImage 2;
            RasterImage 3; RasterImage 4; RasterImage 5] 2 3 None 1 2
           (RasterImage 5)).
  - discriminate.
  - discriminate.
  - reflexivity.
  - intros img _. eexists. reflexivity.
  - simpl. lia.
  - simpl. lia.
  - reflexivity.
Defined.

End GridOrder.

(** ** detect_video: which errors leave it *)

Module VideoErrors.

Import Video VideoFacts VideoRuns.

Section Run.

Variable open_video : string -> option video.
Variable wait_key : nat -> Z.
Variable transform_frame : frame -> image.

Local Abbreviation detect_video :=
  (detect_video open_video wait_key transform_frame).



End Run.

End VideoErrors.
